(** * Movie catalog store: a shallow embedding of [src/app/lib/data.ts]

    The data layer keeps two module-level arrays, [movies] and [users], and
    exposes synchronous helpers over them.  The embedding threads the pair of
    arrays explicitly as a [Store]; every exported function of the module
    becomes a function from a store (and its arguments) to the new store and
    the returned value.

    Modelling choices, all local to this file:
    - a JavaScript array is a [list]; the objects reachable from the two
      arrays are never shared between two array slots (every helper builds a
      fresh object or a fresh array before storing it), so in-place mutation
      of the element found by [Array.prototype.find] is the replacement of
      the first matching element;
    - a [number] holding an array length is a [nat]; a rating and an average
      are exact rationals [Q] (the rounding of IEEE doubles is abstracted);
    - the year produced by [new Date(s).getFullYear()] is an integer or
      [NaN]; the host's [Date] is a parameter of the development;
    - [searchMovies] is left out: no property below concerns it. *)

From Stdlib Require Import List String Ascii Bool Arith ZArith QArith Lia.
From Stdlib Require Import Sorted Permutation DecimalString DecimalNat Lqa.
Import ListNotations.

Close Scope Q_scope.
Local Open Scope string_scope.
Local Open Scope list_scope.

(** ** JavaScript array helpers used by the data layer *)

Module JS.

Section Arrays.
Context {A : Type}.

(** [arr.findIndex(p)], with [None] for the source's [-1]. *)
Fixpoint findIndex (p : A -> bool) (l : list A) : option nat :=
  match l with
  | [] => None
  | x :: xs =>
      if p x then Some 0
      else match findIndex p xs with
           | Some i => Some (S i)
           | None => None
           end
  end.

(** [arr.splice(i, 1)]: the array without its element at index [i]. *)
Definition splice1 (i : nat) (l : list A) : list A :=
  firstn i l ++ skipn (S i) l.

(** [arr[i] = v] for an index inside the array. *)
Fixpoint assign (i : nat) (v : A) (l : list A) : list A :=
  match l, i with
  | [], _ => []
  | _ :: xs, 0 => v :: xs
  | x :: xs, S j => x :: assign j v xs
  end.

(** In-place mutation of the object returned by [arr.find(p)]: the first
    element satisfying [p] is replaced by its mutated version. *)
Fixpoint mutateFound (p : A -> bool) (f : A -> A) (l : list A) : list A :=
  match l with
  | [] => []
  | x :: xs => if p x then f x :: xs else x :: mutateFound p f xs
  end.

(** [arr.push(v)]. *)
Definition push (v : A) (l : list A) : list A := l ++ [v].
End Arrays.

(** [arr.includes(s)] on an array of strings. *)
Definition includes (s : string) (l : list string) : bool :=
  existsb (String.eqb s) l.

(** [n.toString()] for a non-negative integer [n]. *)
Definition toString (n : nat) : string :=
  NilEmpty.string_of_uint (Nat.to_uint n).

(** The numbers the year functions handle: the value of [getFullYear()] is
    an integer, or [NaN] when the date string does not parse. *)
Inductive integer := Int (z : Z) | NaN.

(** [a === b]. *)
Definition strictEq (a b : integer) : bool :=
  match a, b with
  | Int x, Int y => Z.eqb x y
  | _, _ => false
  end.

(** The SameValueZero comparison of [Set]: [NaN] is equal to itself. *)
Definition sameValueZero (a b : integer) : bool :=
  match a, b with
  | Int x, Int y => Z.eqb x y
  | NaN, NaN => true
  | _, _ => false
  end.

(** [!a]: zero and [NaN] are falsy. *)
Definition falsy (a : integer) : bool :=
  match a with
  | Int z => Z.eqb z 0
  | NaN => true
  end.

(** [a - b]. *)
Definition sub (a b : integer) : integer :=
  match a, b with
  | Int x, Int y => Int (x - y)
  | _, _ => NaN
  end.

(** [Array.from(new Set(l))]: the values of [l] in order of first
    occurrence. *)
Definition setAdd (seen : list integer) (y : integer) : list integer :=
  if existsb (sameValueZero y) seen then seen else seen ++ [y].

Definition distinct (l : list integer) : list integer :=
  fold_left setAdd l [].

(** [arr.sort(comparefn)].  The standard leaves the algorithm open but
    requires a stable sort, and reads a [NaN] comparison as [+0]; a stable
    insertion sort stands for it. *)
Section Sorting.
Context {A : Type}.
Variable comparefn : A -> A -> integer.

Definition sortCompare (x y : A) : Z :=
  match comparefn x y with
  | Int v => v
  | NaN => 0%Z
  end.

Fixpoint insert (x : A) (l : list A) : list A :=
  match l with
  | [] => [x]
  | y :: ys =>
      if (sortCompare x y <=? 0)%Z then x :: y :: ys
      else y :: insert x ys
  end.

Definition sort (l : list A) : list A := fold_right insert [] l.
End Sorting.

End JS.

(** ** Entities *)

Record Rating := mkRating {
  userId : string;
  rating : Q;
  review : option string
}.

Module Movie.
Record t := mk {
  id : string;
  title : string;
  description : string;
  imageUrl : string;
  releaseDate : string;
  ratings : list Rating;
  averageRating : Q;
  totalRatings : nat
}.
End Movie.

Module User.
Inductive Role := admin | user.

Record t := mk {
  id : string;
  email : string;
  name : string;
  password : string;
  role : Role;
  favorites : list string;
  createdAt : string
}.

Definition setFavorites (favs : list string) (u : t) : t :=
  mk (id u) (email u) (name u) (password u) (role u) favs (createdAt u).
End User.

(** The two module-level arrays. *)
Record Store := mkStore {
  movies : list Movie.t;
  users : list User.t
}.

(** The argument of [addMovie]:
    [Omit<Movie, 'id' | 'ratings' | 'averageRating' | 'totalRatings'>]. *)
Record MovieFields := mkMovieFields {
  f_title : string;
  f_description : string;
  f_imageUrl : string;
  f_releaseDate : string
}.

(** The argument of [updateMovie]: [Partial<Omit<Movie, ...>>]; [None] is an
    absent key. *)
Record MovieUpdates := mkMovieUpdates {
  u_title : option string;
  u_description : option string;
  u_imageUrl : option string;
  u_releaseDate : option string
}.

(** The argument of [addUser]; [createdAt] is the clock reading
    [new Date().toISOString()] taken by the call. *)
Record UserData := mkUserData {
  d_email : string;
  d_name : string;
  d_password : string
}.

(** ** The seeded arrays *)

Definition seedMovie (i t d img date : string) : Movie.t :=
  Movie.mk i t d img date [] 0 0.

Definition initialMovies : list Movie.t :=
  [ seedMovie "1" "The Matrix"
      "A computer programmer is led to fight an underground war against powerful computers who have constructed his entire reality with a computer program."
      "https://image.tmdb.org/t/p/w500/f89U3ADr1oiB1s9GkdPOEpXUk5H.jpg"
      "1999-03-31";
    seedMovie "2" "Inception"
      "A thief who steals corporate secrets through the use of dream-sharing technology is given the inverse task of planting an idea into the mind of a C.E.O."
      "https://image.tmdb.org/t/p/w500/9gk7adHYeDvHkCSEqAvQNLV5Uge.jpg"
      "2010-07-16";
    seedMovie "3" "Interstellar"
      "A team of explorers travel through a wormhole in space in an attempt to ensure humanity's survival."
      "https://image.tmdb.org/t/p/w500/gEU2QniE6E77NI6lCU6MxlNBvIx.jpg"
      "2014-11-07";
    seedMovie "4" "The Dark Knight"
      "When the menace known as the Joker wreaks havoc and chaos on the people of Gotham, Batman must accept one of the greatest psychological and physical tests."
      "https://image.tmdb.org/t/p/w500/qJ2tW6WMUDux911r6m7haRef0WH.jpg"
      "2008-07-18";
    seedMovie "5" "Pulp Fiction"
      "The lives of two mob hitmen, a boxer, a gangster and his wife, and a pair of diner bandits intertwine in four tales of violence and redemption."
      "https://image.tmdb.org/t/p/w500/d5iIlFn5s0ImszYzBPb8JPIfbXD.jpg"
      "1994-10-14";
    seedMovie "6" "Fight Club"
      "An insomniac office worker and a devil-may-care soap maker form an underground fight club that evolves into an anarchist organization."
      "https://image.tmdb.org/t/p/w500/pB8BM7pdSp6B6Ih7QZ4DrQ3PmJK.jpg"
      "1999-10-15" ].

Definition initialUsers : list User.t :=
  [ User.mk "1" "admin@movieapp.com" "Movie Admin"
      "$2b$10$Vp41WiGzXbNY2cAl7rqC/u46K126o1uOhEfUjWR83.uzlL8ExBvIq"
      User.admin [] "2024-01-01T00:00:00.000Z";
    User.mk "2" "demo@example.com" "Demo User"
      "$2b$10$Vp41WiGzXbNY2cAl7rqC/u46K126o1uOhEfUjWR83.uzlL8ExBvIq"
      User.user [] "2024-01-01T00:00:00.000Z" ].

Definition initialStore : Store := mkStore initialMovies initialUsers.

(** ** Core data access *)

Definition getMovies (s : Store) : list Movie.t := movies s.

Definition hasMovieId (i : string) (m : Movie.t) : bool :=
  String.eqb (Movie.id m) i.

Definition hasUserId (i : string) (u : User.t) : bool :=
  String.eqb (User.id u) i.

Definition getMovieById (i : string) (s : Store) : option Movie.t :=
  find (hasMovieId i) (movies s).

Definition findUser (i : string) (s : Store) : option User.t :=
  find (hasUserId i) (users s).

Definition newMovie (fields : MovieFields) (s : Store) : Movie.t :=
  Movie.mk (JS.toString (List.length (movies s) + 1))
           (f_title fields) (f_description fields)
           (f_imageUrl fields) (f_releaseDate fields)
           [] 0 0.

Definition addMovie (fields : MovieFields) (s : Store) : Store * Movie.t :=
  let m := newMovie fields s in
  (mkStore (JS.push m (movies s)) (users s), m).

Definition getUserByEmail (e : string) (s : Store) : option User.t :=
  find (fun u => String.eqb (User.email u) e) (users s).

Definition addUser (d : UserData) (now : string) (s : Store)
  : Store * User.t :=
  let u := User.mk (JS.toString (List.length (users s) + 1))
                   (d_email d) (d_name d) (d_password d)
                   User.user [] now in
  (mkStore (movies s) (JS.push u (users s)), u).

(** ** Favorites *)

Definition addToFavorites (uid mid : string) (s : Store) : Store * bool :=
  match findUser uid s with
  | None => (s, false)
  | Some u =>
      if JS.includes mid (User.favorites u) then (s, false)
      else
        (mkStore (movies s)
           (JS.mutateFound (hasUserId uid)
              (fun u => User.setFavorites (JS.push mid (User.favorites u)) u)
              (users s)),
         true)
  end.

Definition dropId (mid : string) (favs : list string) : list string :=
  filter (fun i => negb (String.eqb i mid)) favs.

Definition removeFromFavorites (uid mid : string) (s : Store)
  : Store * bool :=
  match findUser uid s with
  | None => (s, false)
  | Some _ =>
      (mkStore (movies s)
         (JS.mutateFound (hasUserId uid)
            (fun u => User.setFavorites (dropId mid (User.favorites u)) u)
            (users s)),
       true)
  end.

Definition getFavoriteMovies (uid : string) (s : Store) : list Movie.t :=
  match findUser uid s with
  | None => []
  | Some u =>
      filter (fun m => JS.includes (Movie.id m) (User.favorites u)) (movies s)
  end.

Definition isMovieFavorited (uid mid : string) (s : Store) : bool :=
  match findUser uid s with
  | Some u => JS.includes mid (User.favorites u)
  | None => false
  end.

(** ** Ratings *)

(** [ratings.reduce((sum, r) => sum + r.rating, 0)]. *)
Definition sumRatings (rs : list Rating) : Q :=
  fold_left (fun sum r => (sum + rating r)%Q) rs 0%Q.

Definition notBy (uid : string) (r : Rating) : bool :=
  negb (String.eqb (userId r) uid).

(** The three assignments [addRating] performs on the movie it found. *)
Definition rate (uid : string) (r : Q) (rev : option string) (m : Movie.t)
  : Movie.t :=
  let rs := JS.push (mkRating uid r rev) (filter (notBy uid) (Movie.ratings m)) in
  let total := List.length rs in
  Movie.mk (Movie.id m) (Movie.title m) (Movie.description m)
           (Movie.imageUrl m) (Movie.releaseDate m)
           rs (sumRatings rs / inject_Z (Z.of_nat total))%Q total.

Definition addRating (mid uid : string) (r : Q) (rev : option string)
                     (s : Store) : Store * option Movie.t :=
  match getMovieById mid s with
  | None => (s, None)
  | Some m =>
      (mkStore (JS.mutateFound (hasMovieId mid) (rate uid r rev) (movies s))
               (users s),
       Some (rate uid r rev m))
  end.

Definition getUserRating (mid uid : string) (s : Store)
  : option (Q * option string) :=
  match getMovieById mid s with
  | None => None
  | Some m =>
      match find (fun r => String.eqb (userId r) uid) (Movie.ratings m) with
      | Some r => Some (rating r, review r)
      | None => None
      end
  end.

(** ** Admin movie management *)

Definition orKeep (old : string) (new : option string) : string :=
  match new with
  | Some v => v
  | None => old
  end.

(** [{ ...movie, ...updates }]. *)
Definition merge (m : Movie.t) (u : MovieUpdates) : Movie.t :=
  Movie.mk (Movie.id m)
           (orKeep (Movie.title m) (u_title u))
           (orKeep (Movie.description m) (u_description u))
           (orKeep (Movie.imageUrl m) (u_imageUrl u))
           (orKeep (Movie.releaseDate m) (u_releaseDate u))
           (Movie.ratings m) (Movie.averageRating m) (Movie.totalRatings m).

(** The inner [None] branch is dead: an index returned by [findIndex] is
    inside the array (lemma [findIndex_Some] below). *)
Definition updateMovie (i : string) (u : MovieUpdates) (s : Store)
  : Store * option Movie.t :=
  match JS.findIndex (hasMovieId i) (movies s) with
  | None => (s, None)
  | Some idx =>
      match nth_error (movies s) idx with
      | Some m =>
          (mkStore (JS.assign idx (merge m u) (movies s)) (users s),
           Some (merge m u))
      | None => (s, None)
      end
  end.

Definition deleteMovie (i : string) (s : Store) : Store * bool :=
  match JS.findIndex (hasMovieId i) (movies s) with
  | None => (s, false)
  | Some idx =>
      (mkStore (JS.splice1 idx (movies s))
               (map (fun u => User.setFavorites (dropId i (User.favorites u)) u)
                    (users s)),
       true)
  end.

(** ** The store as a transition system *)

Inductive Op :=
| OpAddMovie (fields : MovieFields)
| OpAddUser (d : UserData) (now : string)
| OpAddToFavorites (uid mid : string)
| OpRemoveFromFavorites (uid mid : string)
| OpAddRating (mid uid : string) (r : Q) (rev : option string)
| OpUpdateMovie (i : string) (u : MovieUpdates)
| OpDeleteMovie (i : string).

(** What a mutating helper hands back to its caller. *)
Inductive Result :=
| RMovie (m : Movie.t)
| RUser (u : User.t)
| RMovieOrNull (m : option Movie.t)
| RBool (b : bool).

Definition perform (o : Op) (s : Store) : Store * Result :=
  match o with
  | OpAddMovie fields =>
      let (s', m) := addMovie fields s in (s', RMovie m)
  | OpAddUser d now =>
      let (s', u) := addUser d now s in (s', RUser u)
  | OpAddToFavorites uid mid =>
      let (s', b) := addToFavorites uid mid s in (s', RBool b)
  | OpRemoveFromFavorites uid mid =>
      let (s', b) := removeFromFavorites uid mid s in (s', RBool b)
  | OpAddRating mid uid r rev =>
      let (s', m) := addRating mid uid r rev s in (s', RMovieOrNull m)
  | OpUpdateMovie i u =>
      let (s', m) := updateMovie i u s in (s', RMovieOrNull m)
  | OpDeleteMovie i =>
      let (s', b) := deleteMovie i s in (s', RBool b)
  end.

Definition exec (o : Op) (s : Store) : Store := fst (perform o s).

(** A helper reports failure by returning [null] or [false]. *)
Definition reportsFailure (r : Result) : bool :=
  match r with
  | RMovieOrNull None => true
  | RBool false => true
  | _ => false
  end.

(** Running a script of operations, first element first. *)
Definition run (ops : list Op) (s : Store) : Store :=
  fold_left (fun st o => exec o st) ops s.

Inductive reachable : Store -> Prop :=
| reach_init : reachable initialStore
| reach_step (o : Op) (s : Store) : reachable s -> reachable (exec o s).

(** ** Filtering by release year *)

Section Dates.
(** [new Date(s).getFullYear()] of the host: the local-time year of the
    parsed date, [NaN] for a string that does not parse. *)
Variable getFullYear : string -> JS.integer.

Definition yearOf (m : Movie.t) : JS.integer :=
  getFullYear (Movie.releaseDate m).

(** The argument has type [number | null]; [None] is [null]. *)
Definition filterMoviesByYear (year : option JS.integer) (s : Store)
  : list Movie.t :=
  match year with
  | None => movies s
  | Some y =>
      if JS.falsy y then movies s
      else filter (fun m => JS.strictEq (yearOf m) y) (movies s)
  end.

Definition getMovieYears (s : Store) : list JS.integer :=
  JS.sort (fun a b => JS.sub b a) (JS.distinct (map yearOf (movies s))).
End Dates.

(** A host for the examples: local zone UTC, dates written [YYYY-...]. *)
Definition digit (c : ascii) : option Z :=
  let n := nat_of_ascii c in
  if (48 <=? n)%nat && (n <=? 57)%nat then Some (Z.of_nat (n - 48)) else None.

Definition isoYear (s : string) : JS.integer :=
  match s with
  | String a (String b (String c (String d _))) =>
      match digit a, digit b, digit c, digit d with
      | Some x3, Some x2, Some x1, Some x0 =>
          JS.Int (1000 * x3 + 100 * x2 + 10 * x1 + x0)
      | _, _, _, _ => JS.NaN
      end
  | _ => JS.NaN
  end.

(** * The rest of the data layer and its callers *)

(** ** Host functions

    The built-ins the code calls and the libraries it imports are not part
    of the repository; the development is parametric in them. *)
Module Host.
Record t := mk {
  (** [new Date(s).getFullYear()] *)
  getFullYear : string -> JS.integer;
  (** [!isNaN(Date.parse(s))] *)
  dateParses : string -> bool;
  (** [parseInt(s)] *)
  parseInt : string -> JS.integer;
  (** [s.toLowerCase()] *)
  toLowerCase : string -> string;
  (** [s.trim()] *)
  trim : string -> string;
  (** [s.length], the number of UTF-16 code units of the text *)
  codeUnits : string -> nat;
  (** what zod's [z.string().url()] accepts *)
  isUrl : string -> bool;
  (** [bcrypt.compare(plain, hash)] *)
  compare : string -> string -> bool
}.
End Host.

(** ** Text search ([searchMovies]) *)

(** [s.includes(t)] on strings: [t] occurs in [s]. *)
Fixpoint occursIn (t s : string) : bool :=
  String.prefix t s ||
  match s with
  | EmptyString => false
  | String _ s' => occursIn t s'
  end.

Definition searchMovies (h : Host.t) (query : string) (s : Store)
  : list Movie.t :=
  if String.eqb (Host.trim h query) "" then movies s
  else
    let searchTerm := Host.trim h (Host.toLowerCase h query) in
    filter (fun m =>
              occursIn searchTerm (Host.toLowerCase h (Movie.title m)) ||
              occursIn searchTerm (Host.toLowerCase h (Movie.description m)))
           (movies s).

(** ** Sessions and sign-in ([authOptions]) *)

(** [User.role] as the string the token carries. *)
Definition roleName (r : User.Role) : string :=
  match r with
  | User.admin => "admin"
  | User.user => "user"
  end.

(** The credentials submitted to the sign-in form; either may be missing. *)
Record Credentials := mkCredentials {
  c_email : option string;
  c_password : option string
}.

(** What [authorize] hands to NextAuth: the user without the password. *)
Record AuthUser := mkAuthUser {
  a_id : string;
  a_email : string;
  a_name : string;
  a_role : string
}.

(** The two custom claims of the JWT; the claims NextAuth manages itself
    are not touched by this code. *)
Record Token := mkToken {
  t_id : option string;
  t_role : option string
}.

(** [session.user], with the two fields the callbacks add. *)
Record SessionUser := mkSessionUser {
  su_id : option string;
  su_role : option string
}.

Record Session := mkSession {
  s_user : option SessionUser
}.

(** A JavaScript string used as a condition: absent and empty are falsy. *)
Definition truthy (x : option string) : bool :=
  match x with
  | Some v => negb (String.eqb v "")
  | None => false
  end.

Definition authorize (h : Host.t) (credentials : option Credentials)
                     (s : Store) : option AuthUser :=
  match credentials with
  | None => None
  | Some c =>
      if negb (truthy (c_email c)) || negb (truthy (c_password c)) then None
      else
        match c_email c, c_password c with
        | Some email, Some password =>
            match getUserByEmail email s with
            | None => None
            | Some user =>
                if Host.compare h password (User.password user)
                then Some (mkAuthUser (User.id user) (User.email user)
                                      (User.name user)
                                      (roleName (User.role user)))
                else None
            end
        | _, _ => None
        end
  end.

(** The [jwt] callback: [user] is present on the initial sign-in only. *)
Definition jwt (token : Token) (user : option AuthUser) : Token :=
  match user with
  | Some u => mkToken (Some (a_id u)) (Some (a_role u))
  | None => token
  end.

(** The [session] callback, on the session NextAuth built from the token. *)
Definition sessionCallback (token : Token) : Session :=
  mkSession (Some (mkSessionUser (t_id token) (t_role token))).

(** The middleware's [authorized] callback. *)
Definition authorized (token : option Token) (pathname : string) : bool :=
  if String.prefix "/add-movie" pathname then
    match token with
    | Some t =>
        match t_role t with
        | Some r => String.eqb r "admin"
        | None => false
        end
    | None => false
    end
  else if String.prefix "/favorites" pathname then
    match token with
    | Some _ => true
    | None => false
    end
  else true.

(** [session?.user?.id] *)
Definition sessionUserId (session : option Session) : option string :=
  match session with
  | Some se =>
      match s_user se with
      | Some u => su_id u
      | None => None
      end
  | None => None
  end.

(** [session.user?.role === 'admin'] *)
Definition isAdmin (se : Session) : bool :=
  match s_user se with
  | Some u =>
      match su_role u with
      | Some r => String.eqb r "admin"
      | None => false
      end
  | None => false
  end.

(** ** Requests and responses *)

(** A value of a request body, as far as the schemas tell values apart;
    [JOther] is an array or an object. *)
Inductive Json :=
| JNull
| JBool (b : bool)
| JNum (q : Q)
| JStr (s : string)
| JOther.

(** The four properties the movie schemas read from a body ([None]: the
    property is absent, or the body is not an object). *)
Record MovieBody := mkMovieBody {
  b_title : option Json;
  b_description : option Json;
  b_imageUrl : option Json;
  b_releaseDate : option Json
}.

Record RatingBody := mkRatingBody {
  b_movieId : option Json;
  b_rating : option Json;
  b_review : option Json
}.

(** The favorites handlers destructure [movieId] from the body and pass it
    on unchecked; the body is read here at the type [addToFavorites]
    declares for it, a string when present. *)
Record FavoriteBody := mkFavoriteBody {
  fb_movieId : option string
}.

Inductive Payload :=
| PMovies (ms : list Movie.t)
| PMovie (m : Movie.t)
| PRating (r : option (Q * option string))
| PMessage (message : string)
| PMessageMovie (message : string) (m : Movie.t)
| PError (error : string)
| PInvalid.

Record Response := mkResponse {
  status : nat;
  payload : Payload
}.

Definition errorResponse (code : nat) (error : string) : Response :=
  mkResponse code (PError error).

(** ** The zod schemas *)

(** [min(1)]: the string is not empty. *)
Definition nonEmpty (t : string) : bool := negb (String.eqb t "").

(** [min(10)] *)
Definition descriptionOk (h : Host.t) (d : string) : bool :=
  (10 <=? Host.codeUnits h d)%nat.

(** A required string property passing [check]. *)
Definition requiredString (check : string -> bool) (v : option Json)
  : option string :=
  match v with
  | Some (JStr x) => if check x then Some x else None
  | _ => None
  end.

(** An optional string property: absent, or a string passing [check]. *)
Definition optionalString (check : string -> bool) (v : option Json)
  : option (option string) :=
  match v with
  | None => Some None
  | Some (JStr x) => if check x then Some (Some x) else None
  | Some _ => None
  end.

Definition movieSchema (h : Host.t) (b : MovieBody) : option MovieFields :=
  match requiredString nonEmpty (b_title b),
        requiredString (descriptionOk h) (b_description b),
        requiredString (Host.isUrl h) (b_imageUrl b),
        requiredString (Host.dateParses h) (b_releaseDate b) with
  | Some t, Some d, Some i, Some r => Some (mkMovieFields t d i r)
  | _, _, _, _ => None
  end.

Definition movieUpdateSchema (h : Host.t) (b : MovieBody)
  : option MovieUpdates :=
  match optionalString nonEmpty (b_title b),
        optionalString (descriptionOk h) (b_description b),
        optionalString (Host.isUrl h) (b_imageUrl b),
        optionalString (Host.dateParses h) (b_releaseDate b) with
  | Some t, Some d, Some i, Some r => Some (mkMovieUpdates t d i r)
  | _, _, _, _ => None
  end.

Definition ratingOk (q : Q) : bool := Qle_bool 1 q && Qle_bool q 5.

Definition ratingSchema (b : RatingBody)
  : option (string * Q * option string) :=
  match requiredString nonEmpty (b_movieId b), b_rating b,
        optionalString (fun _ => true) (b_review b) with
  | Some mid, Some (JNum q), Some rev =>
      if ratingOk q then Some (mid, q, rev) else None
  | _, _, _ => None
  end.

(** ** The movies route ([GET], [POST]) *)

Module MoviesRoute.

Definition GET (h : Host.t) (search year : option string) (s : Store)
  : Response :=
  let found :=
    match search with
    | Some q => if truthy search then searchMovies h q s else getMovies s
    | None => getMovies s
    end in
  let selected :=
    match year with
    | Some y =>
        if truthy year then
          match Host.parseInt h y with
          | JS.Int n =>
              filter (fun m => JS.strictEq (yearOf (Host.getFullYear h) m)
                                           (JS.Int n)) found
          | JS.NaN => found
          end
        else found
    | None => found
    end in
  mkResponse 200 (PMovies selected).

(** [body] is [None] when [request.json()] rejects. *)
Definition POST (h : Host.t) (session : option Session)
                (body : option MovieBody) (s : Store) : Store * Response :=
  match session with
  | None =>
      (s, errorResponse 401 "Unauthorized - Please sign in to add movies")
  | Some se =>
      if negb (isAdmin se)
      then (s, errorResponse 403 "Forbidden - Admin access required")
      else
        match body with
        | None => (s, errorResponse 500 "Failed to create movie")
        | Some b =>
            match movieSchema h b with
            | None => (s, mkResponse 400 PInvalid)
            | Some fields =>
                let (s', newMovie) := addMovie fields s in
                (s', mkResponse 201 (PMovie newMovie))
            end
        end
  end.

End MoviesRoute.

(** ** The route of one movie ([GET], [PUT], [DELETE]) *)

Module MovieRoute.

Definition GET (id : string) (s : Store) : Response :=
  match getMovieById id s with
  | None => errorResponse 404 "Movie not found"
  | Some movie => mkResponse 200 (PMovie movie)
  end.

Definition PUT (h : Host.t) (session : option Session)
               (body : option MovieBody) (id : string) (s : Store)
  : Store * Response :=
  match session with
  | None => (s, errorResponse 401 "Unauthorized - Please sign in")
  | Some se =>
      if negb (isAdmin se)
      then (s, errorResponse 403 "Forbidden - Admin access required")
      else
        match body with
        | None => (s, errorResponse 500 "Failed to update movie")
        | Some b =>
            match movieUpdateSchema h b with
            | None => (s, mkResponse 400 PInvalid)
            | Some updates =>
                match updateMovie id updates s with
                | (s', None) => (s', errorResponse 404 "Movie not found")
                | (s', Some updatedMovie) =>
                    (s', mkResponse 200
                           (PMessageMovie "Movie updated successfully"
                                          updatedMovie))
                end
            end
        end
  end.

Definition DELETE (session : option Session) (id : string) (s : Store)
  : Store * Response :=
  match session with
  | None => (s, errorResponse 401 "Unauthorized - Please sign in")
  | Some se =>
      if negb (isAdmin se)
      then (s, errorResponse 403 "Forbidden - Admin access required")
      else
        match deleteMovie id s with
        | (s', false) => (s', errorResponse 404 "Movie not found")
        | (s', true) =>
            (s', mkResponse 200 (PMessage "Movie deleted successfully"))
        end
  end.

End MovieRoute.

(** ** The ratings route ([GET], [POST]) *)

Module RatingsRoute.

(** [movieId] is [searchParams.get('movieId')]. *)
Definition GET (session : option Session) (movieId : option string)
               (s : Store) : Response :=
  match sessionUserId session with
  | Some uid =>
      if truthy (Some uid) then
        match movieId with
        | Some mid =>
            if truthy movieId
            then mkResponse 200 (PRating (getUserRating mid uid s))
            else errorResponse 400 "Movie ID is required"
        | None => errorResponse 400 "Movie ID is required"
        end
      else errorResponse 401 "Unauthorized - Please sign in"
  | None => errorResponse 401 "Unauthorized - Please sign in"
  end.

Definition POST (session : option Session) (body : option RatingBody)
                (s : Store) : Store * Response :=
  match sessionUserId session with
  | Some uid =>
      if truthy (Some uid) then
        match body with
        | None => (s, errorResponse 500 "Failed to add rating")
        | Some b =>
            match ratingSchema b with
            | None => (s, mkResponse 400 PInvalid)
            | Some (movieId, rating, review) =>
                match addRating movieId uid rating review s with
                | (s', None) => (s', errorResponse 404 "Movie not found")
                | (s', Some updatedMovie) =>
                    (s', mkResponse 200
                           (PMessageMovie "Rating added successfully"
                                          updatedMovie))
                end
            end
        end
      else (s, errorResponse 401 "Unauthorized - Please sign in")
  | None => (s, errorResponse 401 "Unauthorized - Please sign in")
  end.

End RatingsRoute.

(** ** The favorites route ([GET], [POST], [DELETE]) *)

Module FavoritesRoute.

Definition GET (session : option Session) (s : Store) : Response :=
  match sessionUserId session with
  | Some uid =>
      if truthy (Some uid)
      then mkResponse 200 (PMovies (getFavoriteMovies uid s))
      else errorResponse 401 "Unauthorized - Please sign in"
  | None => errorResponse 401 "Unauthorized - Please sign in"
  end.

Definition POST (session : option Session) (body : option FavoriteBody)
                (s : Store) : Store * Response :=
  match sessionUserId session with
  | Some uid =>
      if truthy (Some uid) then
        match body with
        | None => (s, errorResponse 500 "Failed to add to favorites")
        | Some b =>
            match fb_movieId b with
            | Some movieId =>
                if truthy (fb_movieId b) then
                  match addToFavorites uid movieId s with
                  | (s', false) =>
                      (s', errorResponse 400
                             "Movie already in favorites or not found")
                  | (s', true) =>
                      (s', mkResponse 200
                             (PMessage "Added to favorites successfully"))
                  end
                else (s, errorResponse 400 "Movie ID is required")
            | None => (s, errorResponse 400 "Movie ID is required")
            end
        end
      else (s, errorResponse 401 "Unauthorized - Please sign in")
  | None => (s, errorResponse 401 "Unauthorized - Please sign in")
  end.

Definition DELETE (session : option Session) (body : option FavoriteBody)
                  (s : Store) : Store * Response :=
  match sessionUserId session with
  | Some uid =>
      if truthy (Some uid) then
        match body with
        | None => (s, errorResponse 500 "Failed to remove from favorites")
        | Some b =>
            match fb_movieId b with
            | Some movieId =>
                if truthy (fb_movieId b) then
                  match removeFromFavorites uid movieId s with
                  | (s', false) =>
                      (s', errorResponse 400 "Failed to remove from favorites")
                  | (s', true) =>
                      (s', mkResponse 200
                             (PMessage "Removed from favorites successfully"))
                  end
                else (s, errorResponse 400 "Movie ID is required")
            | None => (s, errorResponse 400 "Movie ID is required")
            end
        end
      else (s, errorResponse 401 "Unauthorized - Please sign in")
  | None => (s, errorResponse 401 "Unauthorized - Please sign in")
  end.

End FavoritesRoute.

(** ** The routes as a transition system *)

Inductive Request :=
| MoviesGET (search year : option string)
| MoviesPOST (session : option Session) (body : option MovieBody)
| MovieGET (id : string)
| MoviePUT (session : option Session) (body : option MovieBody) (id : string)
| MovieDELETE (session : option Session) (id : string)
| RatingsGET (session : option Session) (movieId : option string)
| RatingsPOST (session : option Session) (body : option RatingBody)
| FavoritesGET (session : option Session)
| FavoritesPOST (session : option Session) (body : option FavoriteBody)
| FavoritesDELETE (session : option Session) (body : option FavoriteBody).

Definition serve (h : Host.t) (r : Request) (s : Store) : Store * Response :=
  match r with
  | MoviesGET search year => (s, MoviesRoute.GET h search year s)
  | MoviesPOST session body => MoviesRoute.POST h session body s
  | MovieGET id => (s, MovieRoute.GET id s)
  | MoviePUT session body id => MovieRoute.PUT h session body id s
  | MovieDELETE session id => MovieRoute.DELETE session id s
  | RatingsGET session movieId => (s, RatingsRoute.GET session movieId s)
  | RatingsPOST session body => RatingsRoute.POST session body s
  | FavoritesGET session => (s, FavoritesRoute.GET session s)
  | FavoritesPOST session body => FavoritesRoute.POST session body s
  | FavoritesDELETE session body => FavoritesRoute.DELETE session body s
  end.

(** The stores the routes can bring about, starting from the seeded one. *)
Inductive served (h : Host.t) : Store -> Prop :=
| served_init : served h initialStore
| served_step (r : Request) (s : Store) :
    served h s -> served h (fst (serve h r s)).

(** ** The movie page's favorite button ([toggleFavorite]) *)

(** The page keeps a flag [isFavorited]; a click sends [DELETE] when the
    flag is set and [POST] otherwise, and flips the flag when the response
    is ok (status 200 to 299). *)
Definition responseOk (r : Response) : bool :=
  (200 <=? status r)%nat && (status r <=? 299)%nat.

Definition toggleFavorite (session : option Session) (movieId : string)
                          (isFavorited : bool) (s : Store) : Store * bool :=
  match session with
  | None => (s, isFavorited)
  | Some _ =>
      let (s', response) :=
        (if isFavorited then FavoritesRoute.DELETE else FavoritesRoute.POST)
          session (Some (mkFavoriteBody (Some movieId))) s in
      (s', if responseOk response then negb isFavorited else isFavorited)
  end.

(** * Vocabulary of the properties

    The predicates the statements below are written with, and the sample
    scripts and stores they are evaluated on. *)

(** ** Rating aggregates *)









(** ** Ids and favorites *)

Definition movieIds (s : Store) : list string := map Movie.id (movies s).

(** The ids of the catalog are [1 .. n], in order. *)
Definition sequentialIds (s : Store) : Prop :=
  movieIds s = map JS.toString (seq 1 (List.length (movies s))).

(** Every favorited id is the id of a catalog movie. *)
Definition favoritesExist (s : Store) : Prop :=
  forall u, In u (users s) ->
  forall f, In f (User.favorites u) -> In f (movieIds s).

(** The one requirement the store leaves to its caller: the movie named by
    an [addToFavorites] call is in the catalog at the time of the call. *)
Definition targetExists (o : Op) (s : Store) : Prop :=
  match o with
  | OpAddToFavorites _ mid => In mid (movieIds s)
  | _ => True
  end.

Fixpoint targetsExist (ops : list Op) (s : Store) : Prop :=
  match ops with
  | [] => True
  | o :: rest => targetExists o s /\ targetsExist rest (exec o s)
  end.

(** [subseq l1 l2]: [l1] is [l2] with some elements left out, the others in
    their order. *)
Inductive subseq {A : Type} : list A -> list A -> Prop :=
| subseq_nil : subseq [] []
| subseq_keep x l1 l2 : subseq l1 l2 -> subseq (x :: l1) (x :: l2)
| subseq_skip x l1 l2 : subseq l1 l2 -> subseq l1 (x :: l2).

(** What identifies an account: everything of a user but the favorites. *)
Definition account (u : User.t)
  : string * string * string * string * User.Role * string :=
  (User.id u, User.email u, User.name u, User.password u, User.role u,
   User.createdAt u).

(** The ids of the users are [1 .. n], in order. *)
Definition sequentialUserIds (s : Store) : Prop :=
  map User.id (users s) = map JS.toString (seq 1 (List.length (users s))).

(** No user has the same movie id twice among the favorites. *)
Definition favoritesDistinct (s : Store) : Prop :=
  Forall (fun u => NoDup (User.favorites u)) (users s).

(** [favorites.some(fav => fav.id === movie.id)], the test the movie page
    runs on the list [GET /api/favorites] returned. *)
Definition listedAsFavorite (mid : string) (favs : list Movie.t) : bool :=
  existsb (hasMovieId mid) favs.


(** ** Years *)

(** [b - a], the comparator [getMovieYears] sorts with. *)
Definition newestFirst (a b : JS.integer) : JS.integer := JS.sub b a.

Definition yearGe (a b : JS.integer) : Prop :=
  match a, b with
  | JS.Int x, JS.Int y => (y <= x)%Z
  | _, _ => False
  end.

Definition yearGt (a b : JS.integer) : Prop :=
  match a, b with
  | JS.Int x, JS.Int y => (y < x)%Z
  | _, _ => False
  end.

(** The date string parsed: its year is a number. *)
Definition parsed (a : JS.integer) : Prop := a <> JS.NaN.

(** ** Routes *)

(** What an administrator edits of a movie: everything but the ratings and
    their aggregates. *)
Definition catalogEntry (m : Movie.t)
  : string * string * string * string * string :=
  (Movie.id m, Movie.title m, Movie.description m, Movie.imageUrl m,
   Movie.releaseDate m).

(** The session a request carries, if its route reads one. *)
Definition sessionOf (r : Request) : option Session :=
  match r with
  | MoviesGET _ _ | MovieGET _ => None
  | MoviesPOST se _ | MoviePUT se _ _ | MovieDELETE se _
  | RatingsGET se _ | RatingsPOST se _
  | FavoritesGET se | FavoritesPOST se _ | FavoritesDELETE se _ => se
  end.

(** The request comes from a session whose role is 'admin'. *)
Definition fromAdmin (r : Request) : bool :=
  match sessionOf r with
  | Some se => isAdmin se
  | None => false
  end.

(** The four field checks of [movieSchema], on a stored movie. *)
Definition entryOk (h : Host.t) (m : Movie.t) : bool :=
  nonEmpty (Movie.title m) && descriptionOk h (Movie.description m) &&
  Host.isUrl h (Movie.imageUrl m) && Host.dateParses h (Movie.releaseDate m).

(** [t] occurs in [s]: [s] is some text, [t], some text. *)
Definition substring (t s : string) : Prop :=
  exists before after, s = (before ++ t ++ after)%string.

(** The operation of the store a request performs, if it gets that far;
    it depends on the request alone. *)
Definition operationOf (h : Host.t) (r : Request) : option Op :=
  match r with
  | MoviesPOST (Some se) (Some b) =>
      if isAdmin se then option_map OpAddMovie (movieSchema h b) else None
  | MoviePUT (Some se) (Some b) id =>
      if isAdmin se
      then option_map (OpUpdateMovie id) (movieUpdateSchema h b) else None
  | MovieDELETE (Some se) id =>
      if isAdmin se then Some (OpDeleteMovie id) else None
  | RatingsPOST se (Some b) =>
      match sessionUserId se, ratingSchema b with
      | Some uid, Some (mid, q, rev) =>
          if truthy (Some uid) then Some (OpAddRating mid uid q rev) else None
      | _, _ => None
      end
  | FavoritesPOST se (Some b) =>
      match sessionUserId se, fb_movieId b with
      | Some uid, Some mid =>
          if truthy (Some uid) && truthy (Some mid)
          then Some (OpAddToFavorites uid mid) else None
      | _, _ => None
      end
  | FavoritesDELETE se (Some b) =>
      match sessionUserId se, fb_movieId b with
      | Some uid, Some mid =>
          if truthy (Some uid) && truthy (Some mid)
          then Some (OpRemoveFromFavorites uid mid) else None
      | _, _ => None
      end
  | _ => None
  end.

Definition perhaps (o : option Op) (s : Store) : Store :=
  match o with
  | Some op => exec op s
  | None => s
  end.

(** ** Sample inputs *)

(** The movie of the specification's scenario. *)
Definition sampleFields : MovieFields :=
  mkMovieFields "X" "ten+ chars" "https://e/i.jpg" "2020-01-01".

(** Create that movie (it gets id 7), rate it 4, then replace the rating
    by 2. *)
Definition scenarioOps : list Op :=
  [ OpAddMovie sampleFields;
    OpAddRating "7" "u1" 4%Q None; OpAddRating "7" "u1" 2%Q None ].

(** What the scenario observes of a movie: ratings, average, count. *)
Definition aggregates (m : Movie.t) : list Q * Q * nat :=
  (map rating (Movie.ratings m), Qred (Movie.averageRating m),
   Movie.totalRatings m).

(** Favorites, a deletion that cascades, a creation, a removal. *)
Definition cascadeOps : list Op :=
  [ OpAddToFavorites "2" "3"; OpAddToFavorites "2" "1"; OpDeleteMovie "3";
    OpAddMovie sampleFields; OpRemoveFromFavorites "2" "6" ].


(** Both seeded users have favorited movie 3. *)
Definition bothFavorited : Store :=
  run [ OpAddToFavorites "1" "3"; OpAddToFavorites "2" "3";
        OpAddToFavorites "2" "5" ] initialStore.

(** User 2 favorites movie 5, then an id no movie has, then movie 2. *)
Definition outOfOrderFavorites : Store :=
  run [ OpAddToFavorites "2" "5"; OpAddToFavorites "2" "999";
        OpAddToFavorites "2" "2" ] initialStore.

Definition newcomer : UserData :=
  mkUserData "new@example.com" "New User" "$2b$10$hash".


(** A host for the examples. It is right on the ASCII texts they use: dates
    written [YYYY-...] read in the UTC zone, years of four digits, letters
    A to Z, blanks, URLs that start with [https://], and the one password
    the seeded data documents. *)
Definition lowerAscii (c : ascii) : ascii :=
  let n := nat_of_ascii c in
  if (65 <=? n)%nat && (n <=? 90)%nat then ascii_of_nat (n + 32) else c.

Fixpoint lowerCase (s : string) : string :=
  match s with
  | EmptyString => EmptyString
  | String c s' => String (lowerAscii c) (lowerCase s')
  end.

Fixpoint dropBlanks (s : string) : string :=
  match s with
  | String c s' => if Ascii.eqb c " " then dropBlanks s' else s
  | EmptyString => EmptyString
  end.

Fixpoint reverse (s acc : string) : string :=
  match s with
  | EmptyString => acc
  | String c s' => reverse s' (String c acc)
  end.

Definition trimBlanks (s : string) : string :=
  reverse (dropBlanks (reverse (dropBlanks s) "")) "".

Definition seededHash : string :=
  "$2b$10$Vp41WiGzXbNY2cAl7rqC/u46K126o1uOhEfUjWR83.uzlL8ExBvIq".

Definition sampleHost : Host.t :=
  Host.mk isoYear
          (fun d => match isoYear d with JS.Int _ => true | JS.NaN => false end)
          isoYear
          lowerCase
          trimBlanks
          String.length
          (String.prefix "https://")
          (fun plain hash =>
             String.eqb plain "password" && String.eqb hash seededHash).

Definition adminSession : option Session :=
  Some (mkSession (Some (mkSessionUser (Some "1") (Some "admin")))).

Definition demoSession : option Session :=
  Some (mkSession (Some (mkSessionUser (Some "2") (Some "user")))).

Definition sampleMovieBody : MovieBody :=
  mkMovieBody (Some (JStr "Arrival"))
              (Some (JStr "A linguist is asked to talk to visitors."))
              (Some (JStr "https://image.tmdb.org/t/p/w500/arrival.jpg"))
              (Some (JStr "2016-11-11")).

Definition fourStars : RatingBody :=
  mkRatingBody (Some (JStr "3")) (Some (JNum 4%Q)) (Some (JStr "good")).

Definition tenStars : RatingBody :=
  mkRatingBody (Some (JStr "3")) (Some (JNum 10%Q)) None.

(** Serving a list of requests, first element first. *)
Definition serveAll (h : Host.t) (rs : list Request) (s : Store) : Store :=
  fold_left (fun st r => fst (serve h r st)) rs s.

(** An evening at the catalog: the demo user rates and favorites, tries a
    rating out of range and a creation; the administrator creates, edits
    and deletes. *)
Definition evening : list Request :=
  [ RatingsPOST demoSession (Some fourStars);
    RatingsPOST demoSession (Some tenStars);
    FavoritesPOST demoSession (Some (mkFavoriteBody (Some "3")));
    MoviesPOST demoSession (Some sampleMovieBody);
    MoviesPOST adminSession (Some sampleMovieBody);
    MoviePUT adminSession
      (Some (mkMovieBody (Some (JStr "Interstellar (2014)")) None None None))
      "3";
    MovieDELETE adminSession "5";
    RatingsPOST adminSession (Some fourStars) ].

(** * Properties *)

(** ** Facts about the array helpers *)

Section ArrayFacts.
Context {A : Type}.
Implicit Types (p : A -> bool) (l : list A).

Lemma findIndex_None p l :
  JS.findIndex p l = None <-> find p l = None.
Proof.
  induction l as [|x xs IH]; simpl; [tauto|].
  destruct (p x); [split; discriminate|].
  destruct (JS.findIndex p xs); rewrite <- IH; split; congruence.
Qed.

(** The index found splits the array around the element [find] returns. *)
Lemma findIndex_Some p l i :
  JS.findIndex p l = Some i ->
  exists l1 x l2,
    l = l1 ++ x :: l2 /\ List.length l1 = i /\ p x = true /\
    Forall (fun y => p y = false) l1 /\
    find p l = Some x /\ nth_error l i = Some x.
Proof.
  revert i; induction l as [|x xs IH]; simpl; intros i H; [discriminate|].
  destruct (p x) eqn:Hp.
  - injection H as <-. exists [], x, xs. repeat split; auto.
  - destruct (JS.findIndex p xs) as [j|] eqn:Hj; [|discriminate].
    injection H as <-.
    destruct (IH j eq_refl) as (l1 & y & l2 & -> & <- & Hy & Hl1 & Hf & Hn).
    exists (x :: l1), y, l2. repeat split; auto.
Qed.

Lemma find_split p l x :
  find p l = Some x ->
  exists l1 l2,
    l = l1 ++ x :: l2 /\ p x = true /\ Forall (fun y => p y = false) l1.
Proof.
  induction l as [|y ys IH]; simpl; [discriminate|].
  destruct (p y) eqn:Hp; intros H.
  - injection H as ->. exists [], ys. auto.
  - destruct (IH H) as (l1 & l2 & -> & Hx & Hl1).
    exists (y :: l1), l2. auto.
Qed.

Lemma find_app_first p l1 x l2 :
  p x = true -> Forall (fun y => p y = false) l1 ->
  find p (l1 ++ x :: l2) = Some x.
Proof.
  intros Hx Hl1; induction Hl1 as [|y l1 Hy _ IH]; simpl.
  - now rewrite Hx.
  - now rewrite Hy.
Qed.

Lemma mutateFound_split p (f : A -> A) l1 x l2 :
  p x = true -> Forall (fun y => p y = false) l1 ->
  JS.mutateFound p f (l1 ++ x :: l2) = l1 ++ f x :: l2.
Proof.
  intros Hx Hl1; induction Hl1 as [|y l1 Hy _ IH]; simpl.
  - now rewrite Hx.
  - now rewrite Hy, IH.
Qed.

Lemma mutateFound_missing p (f : A -> A) l :
  find p l = None -> JS.mutateFound p f l = l.
Proof.
  induction l as [|x xs IH]; simpl; auto.
  destruct (p x); [discriminate|]. intros H; now rewrite IH.
Qed.

Lemma mutateFound_same p (f : A -> A) l :
  (forall x, In x l -> p x = true -> f x = x) -> JS.mutateFound p f l = l.
Proof.
  induction l as [|x xs IH]; simpl; intros H; auto.
  destruct (p x) eqn:Hp.
  - now rewrite (H x (or_introl eq_refl) Hp).
  - rewrite IH; auto.
Qed.

Lemma mutateFound_Forall (P : A -> Prop) p (f : A -> A) l :
  (forall x, P x -> P (f x)) -> Forall P l -> Forall P (JS.mutateFound p f l).
Proof.
  intros Hf; induction 1 as [|x xs Hx Hxs IH]; simpl; auto.
  destruct (p x); constructor; auto.
Qed.

Lemma mutateFound_length p (f : A -> A) l :
  List.length (JS.mutateFound p f l) = List.length l.
Proof.
  induction l as [|x xs IH]; simpl; auto.
  destruct (p x); simpl; auto.
Qed.

(** When the mutation keeps the search key, the same slot is found again. *)
Lemma find_mutateFound p (f : A -> A) l :
  (forall x, p (f x) = p x) ->
  find p (JS.mutateFound p f l) = option_map f (find p l).
Proof.
  intros Hf; induction l as [|x xs IH]; simpl; auto.
  destruct (p x) eqn:Hp; simpl.
  - now rewrite Hf, Hp.
  - now rewrite Hp.
Qed.

Lemma splice1_split l1 (x : A) l2 :
  JS.splice1 (List.length l1) (l1 ++ x :: l2) = l1 ++ l2.
Proof.
  unfold JS.splice1. induction l1 as [|y l1 IH]; simpl in *; auto.
  now rewrite IH.
Qed.

Lemma assign_split l1 (x v : A) l2 :
  JS.assign (List.length l1) v (l1 ++ x :: l2) = l1 ++ v :: l2.
Proof. induction l1 as [|y l1 IH]; simpl; [|rewrite IH]; reflexivity. Qed.
End ArrayFacts.

Lemma includes_In (s : string) (l : list string) :
  JS.includes s l = true <-> In s l.
Proof.
  unfold JS.includes. rewrite existsb_exists. split.
  - intros (x & Hx & He). apply String.eqb_eq in He. now subst.
  - intros H. exists s. split; auto. apply String.eqb_refl.
Qed.

Lemma includes_false (s : string) (l : list string) :
  JS.includes s l = false <-> ~ In s l.
Proof.
  rewrite <- includes_In. destruct (JS.includes s l); split; congruence.
Qed.

Lemma dropId_In (i f : string) (favs : list string) :
  In f (dropId i favs) <-> In f favs /\ f <> i.
Proof.
  unfold dropId. rewrite filter_In, negb_true_iff, String.eqb_neq. tauto.
Qed.

Lemma dropId_absent (i : string) (favs : list string) :
  ~ In i favs -> dropId i favs = favs.
Proof.
  induction favs as [|f favs IH]; simpl; intros H; auto.
  destruct (String.eqb_spec f i) as [->|_]; simpl.
  - exfalso; auto.
  - rewrite IH; auto.
Qed.

Lemma setFavorites_same (u : User.t) :
  User.setFavorites (User.favorites u) u = u.
Proof. now destruct u. Qed.

Lemma reachable_run (ops : list Op) (s : Store) :
  reachable s -> reachable (run ops s).
Proof.
  revert s; induction ops as [|o ops IH]; simpl; intros s H; auto.
  apply IH. now constructor.
Qed.

(** ** Which operations change the ids of the catalog *)

Lemma mutateFound_ids (p : Movie.t -> bool) (f : Movie.t -> Movie.t) l :
  (forall m, Movie.id (f m) = Movie.id m) ->
  map Movie.id (JS.mutateFound p f l) = map Movie.id l.
Proof.
  intros Hf; induction l as [|x xs IH]; simpl; auto.
  destruct (p x); simpl; congruence.
Qed.

(** Only creation and deletion change the ids of the catalog. *)
Lemma movieIds_exec (o : Op) (s : Store) :
  match o with
  | OpAddMovie _ | OpDeleteMovie _ => True
  | _ => movieIds (exec o s) = movieIds s
  end.
Proof.
  destruct o; unfold exec, movieIds; simpl; auto.
  - unfold addToFavorites. destruct (findUser uid s); auto.
    destruct (JS.includes mid (User.favorites t)); auto.
  - unfold removeFromFavorites. destruct (findUser uid s); auto.
  - unfold addRating. destruct (getMovieById mid s); auto.
    simpl. now apply mutateFound_ids.
  - unfold updateMovie.
    destruct (JS.findIndex (hasMovieId i) (movies s)) as [idx|] eqn:Hi; auto.
    destruct (findIndex_Some _ _ _ Hi)
      as (l1 & x & l2 & Hl & <- & _ & _ & _ & Hn).
    rewrite Hn; simpl. rewrite Hl, assign_split, !map_app. reflexivity.
Qed.

(** ** Per-movie invariants of the transition system

    A property of a single movie that holds of a freshly created movie and
    survives the two ways a stored movie is rewritten ([rate] and [merge])
    holds of every movie of every store an operation produces. *)

Section MovieInvariant.
Variable P : Movie.t -> Prop.
Hypothesis P_new : forall fields s, P (newMovie fields s).
Hypothesis P_rate : forall uid r rev m, P m -> P (rate uid r rev m).
Hypothesis P_merge : forall m u, P m -> P (merge m u).


End MovieInvariant.

(** ** Rating aggregates (claim C1) *)










Example scenario_steps :
  map (fun n => option_map aggregates
                  (getMovieById "7" (run (firstn n scenarioOps) initialStore)))
      [0; 1; 2; 3]
  = [ None; Some ([], 0%Q, 0); Some ([4%Q], 4%Q, 1); Some ([2%Q], 2%Q, 1) ].
Proof. reflexivity. Qed.

(** ** Movie creation (claim C2) *)

Lemma addMovie_result (fields : MovieFields) (s : Store) :
  let (s', m) := addMovie fields s in
  Movie.id m = JS.toString (List.length (movies s) + 1) /\
  Movie.title m = f_title fields /\
  Movie.description m = f_description fields /\
  Movie.imageUrl m = f_imageUrl fields /\
  Movie.releaseDate m = f_releaseDate fields /\
  Movie.ratings m = [] /\
  Movie.averageRating m = 0%Q /\
  Movie.totalRatings m = 0 /\
  movies s' = movies s ++ [m] /\
  users s' = users s.
Proof. simpl. repeat split. Qed.

Lemma toString_inj (n k : nat) : JS.toString n = JS.toString k -> n = k.
Proof.
  unfold JS.toString; intros H.
  apply (f_equal NilEmpty.uint_of_string) in H.
  rewrite !NilEmpty.usu in H. injection H as H.
  now apply DecimalNat.Unsigned.to_uint_inj.
Qed.

(** While the ids of the catalog are [1 .. n] in order the id [addMovie]
    computes is fresh, and no operation but a deletion disturbs that
    numbering. *)
Lemma addMovie_fresh_when_sequential (fields : MovieFields) (s : Store) :
  sequentialIds s ->
  ~ In (Movie.id (snd (addMovie fields s))) (movieIds s).
Proof.
  unfold sequentialIds. simpl.
  intros -> Hin. apply in_map_iff in Hin as (k & Hk & Hin).
  apply toString_inj in Hk. apply in_seq in Hin. lia.
Qed.

Lemma sequentialIds_exec (o : Op) (s : Store) :
  (forall i, o <> OpDeleteMovie i) ->
  sequentialIds s -> sequentialIds (exec o s).
Proof.
  intros Hnd Hs. pose proof (movieIds_exec o s) as Hids.
  assert (Hlen : forall st, List.length (movies st) = List.length (movieIds st))
    by (intros; unfold movieIds; now rewrite length_map).
  unfold sequentialIds in *.
  destruct o; try (rewrite Hlen, Hids, <- Hlen; exact Hs).
  - unfold exec, movieIds in *; simpl. unfold JS.push.
    rewrite map_app, length_app, Hs; simpl.
    replace (List.length (movies s) + 1) with (S (List.length (movies s)))
      by lia.
    now rewrite seq_S, map_app.
  - now elim (Hnd i).
Qed.

Lemma sequentialIds_initial : sequentialIds initialStore.
Proof. reflexivity. Qed.

(** C2 (the code departs from the claim). After [deleteMovie('1')] on the
    seeded store the catalog holds five movies, so [addMovie] computes the id
    [(5 + 1).toString() = '6'], which is the id of the movie "Fight Club"
    still present in the catalog: the id handed out is not unique. *)
Theorem addMovie_reuses_id_after_delete :
  let s := exec (OpDeleteMovie "1") initialStore in
  let m := snd (addMovie sampleFields s) in
  reachable s /\
  Movie.id m = "6" /\
  option_map Movie.title (getMovieById (Movie.id m) s) = Some "Fight Club" /\
  In (Movie.id m) (movieIds s) /\
  movieIds (fst (addMovie sampleFields s)) = ["2"; "3"; "4"; "5"; "6"; "6"].
Proof.
  cbv zeta. split; [apply reach_step, reach_init|].
  repeat split. vm_compute. tauto.
Qed.

(** ** Failure leaves the store untouched (claim C6) *)

(** C6. An operation whose result reports failure ([null] for an unknown
    movie id, [false] for an unknown user or movie id or for a movie already
    in the favorites) returns the store it was given, unchanged. *)
Theorem failure_leaves_store_unchanged (o : Op) (s : Store) :
  reportsFailure (snd (perform o s)) = true -> fst (perform o s) = s.
Proof.
  destruct o; simpl; try discriminate.
  - unfold addToFavorites. destruct (findUser uid s); auto.
    destruct (JS.includes mid (User.favorites t)); auto. discriminate.
  - unfold removeFromFavorites. destruct (findUser uid s); auto. discriminate.
  - unfold addRating. destruct (getMovieById mid s); auto. discriminate.
  - unfold updateMovie. destruct (JS.findIndex (hasMovieId i) (movies s)); auto.
    destruct (nth_error (movies s) n); auto. discriminate.
  - unfold deleteMovie. destruct (JS.findIndex (hasMovieId i) (movies s)); auto.
    discriminate.
Qed.

Lemma failure_leaves_store_unchanged_witness :
  reportsFailure (snd (perform (OpAddRating "999" "1" 5%Q None) initialStore))
    = true /\
  fst (perform (OpAddRating "999" "1" 5%Q None) initialStore) = initialStore.
Proof.
  split; [reflexivity|].
  apply (failure_leaves_store_unchanged (OpAddRating "999" "1" 5%Q None)).
  reflexivity.
Defined.

(** Every way an operation can fail, on the seeded store. *)
Example failures_on_seed :
  map (fun o => perform o initialStore)
    [ OpAddToFavorites "9" "1"; OpRemoveFromFavorites "9" "1";
      OpAddRating "9" "1" 3%Q None;
      OpUpdateMovie "9" (mkMovieUpdates (Some "T") None None None);
      OpDeleteMovie "9" ]
  = [ (initialStore, RBool false); (initialStore, RBool false);
      (initialStore, RMovieOrNull None); (initialStore, RMovieOrNull None);
      (initialStore, RBool false) ].
Proof. reflexivity. Qed.

(** ** Favorites refer to catalog movies (claim C3) *)

Lemma mutateFound_In {A : Type} (p : A -> bool) (f : A -> A) (l : list A) y :
  In y (JS.mutateFound p f l) ->
  In y l \/ exists x, In x l /\ p x = true /\ y = f x.
Proof.
  induction l as [|x xs IH]; simpl; [tauto|].
  destruct (p x) eqn:Hp; simpl.
  - intros [<-|H]; [right; exists x|]; auto.
  - intros [<-|H]; auto. destruct (IH H) as [|(z & Hz & Hpz & ->)]; auto.
    right; exists z; auto.
Qed.

Lemma exec_favoritesExist (o : Op) (s : Store) :
  favoritesExist s -> targetExists o s -> favoritesExist (exec o s).
Proof.
  intros Hinv Hok. pose proof (movieIds_exec o s) as Hids.
  unfold favoritesExist in *.
  destruct o; try rewrite Hids; unfold exec; simpl.
  - (* addMovie *)
    intros usr Hu f Hf. unfold movieIds, JS.push; simpl.
    rewrite map_app. apply in_or_app; left. now apply (Hinv usr).
  - (* addUser *)
    unfold JS.push. intros usr Hu f Hf.
    apply in_app_or in Hu as [Hu|[<-|[]]]; [eauto|destruct Hf].
  - (* addToFavorites *)
    unfold addToFavorites. destruct (findUser uid s); [|exact Hinv].
    destruct (JS.includes mid (User.favorites t)); [exact Hinv|]. simpl.
    intros usr Hu f Hf.
    apply mutateFound_In in Hu as [Hu|(x & Hx & _ & ->)]; [eauto|].
    simpl in Hf. apply in_app_or in Hf as [Hf|[<-|[]]]; eauto.
  - (* removeFromFavorites *)
    unfold removeFromFavorites. destruct (findUser uid s); [|exact Hinv].
    simpl. intros usr Hu f Hf.
    apply mutateFound_In in Hu as [Hu|(x & Hx & _ & ->)]; [eauto|].
    simpl in Hf. apply dropId_In in Hf as [Hf _]. eauto.
  - (* addRating *)
    unfold addRating. now destruct (getMovieById mid s).
  - (* updateMovie *)
    unfold updateMovie.
    destruct (JS.findIndex (hasMovieId i) (movies s)); auto.
    now destruct (nth_error (movies s) n).
  - (* deleteMovie *)
    unfold deleteMovie.
    destruct (JS.findIndex (hasMovieId i) (movies s)) as [idx|] eqn:Hi;
      [|exact Hinv].
    destruct (findIndex_Some _ _ _ Hi) as (l1 & x & l2 & Hl & <- & Hx & _).
    unfold movieIds in *. simpl. rewrite Hl, splice1_split.
    intros usr Hu f Hf.
    apply in_map_iff in Hu as (u0 & <- & Hu0). simpl in Hf.
    apply dropId_In in Hf as [Hf Hne].
    specialize (Hinv _ Hu0 _ Hf). rewrite Hl in Hinv.
    rewrite map_app in *. simpl in Hinv.
    apply in_app_or in Hinv as [H|[H|H]]; apply in_or_app; auto.
    apply String.eqb_eq in Hx. congruence.
Qed.

Lemma favoritesExist_initial : favoritesExist initialStore.
Proof. intros u [<-|[<-|[]]] f []. Qed.

(** C3, as the code has it. Starting from a store whose favorites all name
    catalog movies (the seeded store is one), any script of operations in
    which every [addToFavorites] call names a movie present in the catalog at
    the time of the call ends in a store whose favorites all name catalog
    movies. [addToFavorites] performs no such check itself. *)
Theorem favorites_exist_when_targets_exist (ops : list Op) (s : Store) :
  favoritesExist s -> targetsExist ops s -> favoritesExist (run ops s).
Proof.
  revert s; induction ops as [|o ops IH]; simpl; intros s Hinv Hok; auto.
  destruct Hok as [Ho Hrest]. apply IH; auto.
  now apply exec_favoritesExist.
Qed.

Lemma favorites_exist_when_targets_exist_witness :
  favoritesExist (run cascadeOps initialStore).
Proof.
  apply (favorites_exist_when_targets_exist cascadeOps initialStore).
  - exact favoritesExist_initial.
  - vm_compute. tauto.
Defined.

(** C3, as stated, fails: [addToFavorites] stores whatever id it is given,
    so one call on the seeded store reaches a state where user 1 has the
    favorite ['999'], the id of no movie. *)
Lemma favorites_may_dangle :
  ~ (forall s : Store, reachable s -> favoritesExist s).
Proof.
  intros H.
  specialize (H (exec (OpAddToFavorites "1" "999") initialStore)
                (reach_step _ _ reach_init)).
  specialize (H _ (or_introl eq_refl) "999" (or_introl eq_refl)).
  vm_compute in H.
  repeat (destruct H as [H|H]; [discriminate H|]). exact H.
Qed.

(** ** Replace-on-write ratings (claim C4) *)








Lemma getMovieById_addRating mid uid r rev (s : Store) (m : Movie.t) :
  getMovieById mid s = Some m ->
  getMovieById mid (fst (addRating mid uid r rev s)) = Some (rate uid r rev m).
Proof.
  intros H. unfold addRating. rewrite H. unfold getMovieById in *; simpl.
  rewrite find_mutateFound by reflexivity. now rewrite H.
Qed.




(** ** Deletion and its cascade (claim C5) *)

Lemma findIndex_split {A : Type} (p : A -> bool) l1 (x : A) l2 :
  p x = true -> Forall (fun y => p y = false) l1 ->
  JS.findIndex p (l1 ++ x :: l2) = Some (List.length l1).
Proof.
  intros Hx Hl1; induction Hl1 as [|y l1 Hy _ IH]; simpl.
  - now rewrite Hx.
  - now rewrite Hy, IH.
Qed.

Lemma isMovieFavorited_after_delete (i uid : string) (us : list User.t)
                                    (ms : list Movie.t) :
  isMovieFavorited uid i
    (mkStore ms
       (map (fun u => User.setFavorites (dropId i (User.favorites u)) u) us))
  = false.
Proof.
  unfold isMovieFavorited, findUser; simpl.
  destruct (find _ _) as [u'|] eqn:Hf; auto.
  apply find_some in Hf as [Hin _].
  apply in_map_iff in Hin as (u & <- & _). simpl.
  apply includes_false. rewrite dropId_In. tauto.
Qed.

(** C5. [deleteMovie] with an unknown id returns [false] and the store it was
    given. With a known id it returns [true]; the catalog loses the movie
    found under that id (the first one carrying it) and nothing else, every
    user's favorites lose that id and nothing else, and [isMovieFavorited]
    answers [false] for that id and every user id. *)
Theorem deleteMovie_cascades (i : string) (s : Store) :
  (getMovieById i s = None -> deleteMovie i s = (s, false)) /\
  (forall m, getMovieById i s = Some m ->
     exists l1 l2,
       movies s = l1 ++ m :: l2 /\
       Forall (fun x => Movie.id x <> i) l1 /\
       snd (deleteMovie i s) = true /\
       movies (fst (deleteMovie i s)) = l1 ++ l2 /\
       users (fst (deleteMovie i s))
         = map (fun u => User.setFavorites (dropId i (User.favorites u)) u)
               (users s) /\
       (forall u, In u (users (fst (deleteMovie i s))) ->
                  ~ In i (User.favorites u)) /\
       (forall uid, isMovieFavorited uid i (fst (deleteMovie i s)) = false)).
Proof.
  split.
  - intros H. unfold deleteMovie.
    apply findIndex_None in H. now rewrite H.
  - intros m H. unfold getMovieById in H.
    destruct (find_split _ _ _ H) as (l1 & l2 & Hl & Hm & Hl1).
    exists l1, l2. unfold deleteMovie.
    destruct s as [ms us]; simpl in *; subst ms.
    rewrite (findIndex_split _ _ _ _ Hm Hl1); simpl.
    rewrite splice1_split.
    repeat split; auto.
    + eapply Forall_impl; [|exact Hl1]. simpl. intros x Hx.
      unfold hasMovieId in Hx. now apply String.eqb_neq.
    + intros u Hu. apply in_map_iff in Hu as (u0 & <- & _). simpl.
      rewrite dropId_In. tauto.
    + intros uid. apply isMovieFavorited_after_delete.
Qed.

Lemma deleteMovie_cascades_witness :
  isMovieFavorited "2" "3" bothFavorited = true /\
  exists l1 l2,
    movies bothFavorited
      = l1 ++ seedMovie "3" "Interstellar"
      "A team of explorers travel through a wormhole in space in an attempt to ensure humanity's survival."
      "https://image.tmdb.org/t/p/w500/gEU2QniE6E77NI6lCU6MxlNBvIx.jpg"
      "2014-11-07" :: l2 /\
    Forall (fun x => Movie.id x <> "3") l1 /\
    snd (deleteMovie "3" bothFavorited) = true /\
    movies (fst (deleteMovie "3" bothFavorited)) = l1 ++ l2 /\
    users (fst (deleteMovie "3" bothFavorited))
      = map (fun u => User.setFavorites (dropId "3" (User.favorites u)) u)
            (users bothFavorited) /\
    (forall u, In u (users (fst (deleteMovie "3" bothFavorited))) ->
               ~ In "3" (User.favorites u)) /\
    (forall uid,
       isMovieFavorited uid "3" (fst (deleteMovie "3" bothFavorited))
       = false).
Proof.
  split; [reflexivity|].
  apply (proj2 (deleteMovie_cascades "3" bothFavorited)).
  reflexivity.
Defined.

(** ** Favorites laws (claim C7) *)

Lemma findUser_mutateFound (uid : string) (g : list string -> list string)
                           (s : Store) :
  find (hasUserId uid)
       (JS.mutateFound (hasUserId uid)
          (fun u => User.setFavorites (g (User.favorites u)) u) (users s))
  = option_map (fun u => User.setFavorites (g (User.favorites u)) u)
               (findUser uid s).
Proof. apply find_mutateFound. reflexivity. Qed.

(** C7. [removeFromFavorites] returns [false] exactly when no user has the
    given id. For a user that exists: after [addToFavorites] the movie is
    favorited, whatever the call returned; after [removeFromFavorites] it is
    not; removing a movie that is not favorited returns [true] and the store
    unchanged; adding a movie that is already favorited returns [false] (and
    the store unchanged), adding any other returns [true]. *)
Theorem favorites_laws (uid mid : string) (s : Store) :
  (snd (removeFromFavorites uid mid s) = false <-> findUser uid s = None) /\
  (forall u, findUser uid s = Some u ->
     isMovieFavorited uid mid (fst (addToFavorites uid mid s)) = true /\
     isMovieFavorited uid mid (fst (removeFromFavorites uid mid s)) = false /\
     (isMovieFavorited uid mid s = false ->
      removeFromFavorites uid mid s = (s, true)) /\
     (isMovieFavorited uid mid s = true ->
      addToFavorites uid mid s = (s, false)) /\
     (isMovieFavorited uid mid s = false ->
      snd (addToFavorites uid mid s) = true)).
Proof.
  split.
  - unfold removeFromFavorites. destruct (findUser uid s); simpl;
      split; congruence.
  - intros u Hu.
    unfold addToFavorites, removeFromFavorites, isMovieFavorited.
    rewrite Hu. repeat split.
    + destruct (JS.includes mid (User.favorites u)) eqn:Hinc; simpl.
      * now rewrite Hu.
      * unfold findUser; simpl. rewrite findUser_mutateFound, Hu; simpl.
        apply includes_In. unfold JS.push. apply in_or_app; right; now left.
    + unfold findUser at 1; simpl. rewrite findUser_mutateFound, Hu; simpl.
      apply includes_false. rewrite dropId_In. tauto.
    + intros Hno. apply includes_false in Hno.
      unfold findUser in Hu.
      destruct (find_split _ _ _ Hu) as (l1 & l2 & Hl & Hp & Hl1).
      rewrite Hl, (mutateFound_split _ _ _ _ _ Hp Hl1).
      rewrite (dropId_absent _ _ Hno), setFavorites_same, <- Hl.
      now destruct s.
    + intros ->. reflexivity.
    + intros ->. reflexivity.
Qed.

Lemma favorites_laws_witness :
  findUser "2" initialStore <> None /\
  isMovieFavorited "2" "4" (fst (addToFavorites "2" "4" initialStore)) = true /\
  isMovieFavorited "2" "4" (fst (removeFromFavorites "2" "4" initialStore))
    = false /\
  (isMovieFavorited "2" "4" initialStore = false ->
   removeFromFavorites "2" "4" initialStore = (initialStore, true)) /\
  (isMovieFavorited "2" "4" initialStore = true ->
   addToFavorites "2" "4" initialStore = (initialStore, false)) /\
  (isMovieFavorited "2" "4" initialStore = false ->
   snd (addToFavorites "2" "4" initialStore) = true).
Proof.
  split; [discriminate|].
  destruct (favorites_laws "2" "4" initialStore) as [_ H].
  exact (H _ eq_refl).
Defined.

Example favorites_round_trip :
  let s1 := fst (addToFavorites "2" "4" initialStore) in
  addToFavorites "2" "4" s1 = (s1, false) /\
  removeFromFavorites "2" "4" s1 = (initialStore, true) /\
  removeFromFavorites "2" "4" initialStore = (initialStore, true) /\
  removeFromFavorites "7" "4" initialStore = (initialStore, false).
Proof. repeat split. Qed.

(** ** Favorite movies come in catalog order (claim C10) *)

Lemma filter_subseq {A : Type} (p : A -> bool) (l : list A) :
  subseq (filter p l) l.
Proof.
  induction l as [|x xs IH]; simpl; [constructor|].
  destruct (p x); now constructor.
Qed.

(** C10. For an unknown user [getFavoriteMovies] returns the empty array.
    For a known one it returns the catalog filtered by membership of the id
    in the user's favorites: a subsequence of the catalog (catalog order, not
    the order of the favorites), holding exactly the catalog movies whose id
    is favorited; a favorited id that no catalog movie carries contributes
    nothing. *)
Theorem getFavoriteMovies_catalog_order (uid : string) (s : Store) :
  (findUser uid s = None -> getFavoriteMovies uid s = []) /\
  (forall u, findUser uid s = Some u ->
     getFavoriteMovies uid s
       = filter (fun m => JS.includes (Movie.id m) (User.favorites u))
                (movies s) /\
     subseq (getFavoriteMovies uid s) (movies s) /\
     (forall m, In m (getFavoriteMovies uid s) <->
                In m (movies s) /\ In (Movie.id m) (User.favorites u)) /\
     (forall f, In f (User.favorites u) -> ~ In f (movieIds s) ->
                ~ In f (map Movie.id (getFavoriteMovies uid s)))).
Proof.
  unfold getFavoriteMovies. split.
  - now intros ->.
  - intros u ->. split; [reflexivity|]. split; [apply filter_subseq|]. split.
    + intros m. rewrite filter_In, includes_In. tauto.
    + intros f _ Hno Hin. apply Hno.
      apply in_map_iff in Hin as (m & <- & Hm).
      apply filter_In in Hm as [Hm _]. unfold movieIds. now apply in_map.
Qed.

Lemma getFavoriteMovies_catalog_order_witness :
  option_map User.favorites (findUser "2" outOfOrderFavorites)
    = Some ["5"; "999"; "2"] /\
  map Movie.id (getFavoriteMovies "2" outOfOrderFavorites) = ["2"; "5"] /\
  subseq (getFavoriteMovies "2" outOfOrderFavorites)
         (movies outOfOrderFavorites) /\
  getFavoriteMovies "7" outOfOrderFavorites = [].
Proof.
  split; [reflexivity|]. split; [reflexivity|].
  destruct (getFavoriteMovies_catalog_order "2" outOfOrderFavorites)
    as [_ H].
  destruct (H _ eq_refl) as (_ & Hsub & _).
  split; [exact Hsub|].
  exact (proj1 (getFavoriteMovies_catalog_order "7" outOfOrderFavorites)
               eq_refl).
Defined.

(** ** Filtering by year (claim C8) *)

Lemma strictEq_Int (a : JS.integer) (y : Z) :
  JS.strictEq a (JS.Int y) = true <-> a = JS.Int y.
Proof.
  destruct a as [x|]; simpl; [|split; discriminate].
  rewrite Z.eqb_eq. split; congruence.
Qed.

Section YearFilter.
Variable getFullYear : string -> JS.integer.

(** C8, as the code has it. For a non-zero integer [y],
    [filterMoviesByYear(y)] is the catalog filtered to the movies whose
    release year is [y], in catalog order; [null] returns the whole
    catalog, and so does the year 0, which the guard [!year] does not
    tell from [null]. *)
Theorem filterMoviesByYear_nonzero (y : Z) (s : Store) :
  y <> 0%Z ->
  filterMoviesByYear getFullYear (Some (JS.Int y)) s
    = filter (fun m => JS.strictEq (yearOf getFullYear m) (JS.Int y))
             (movies s) /\
  (forall m, In m (filterMoviesByYear getFullYear (Some (JS.Int y)) s) <->
             In m (movies s) /\ yearOf getFullYear m = JS.Int y) /\
  filterMoviesByYear getFullYear None s = movies s /\
  filterMoviesByYear getFullYear (Some (JS.Int 0)) s = movies s.
Proof.
  intros Hy. unfold filterMoviesByYear; simpl.
  apply Z.eqb_neq in Hy. rewrite Hy.
  split; [reflexivity|]. split; [|split; reflexivity].
  intros m. now rewrite filter_In, strictEq_Int.
Qed.

(** A [NaN] argument is falsy too. *)
Lemma filterMoviesByYear_NaN (s : Store) :
  filterMoviesByYear getFullYear (Some JS.NaN) s = movies s.
Proof. reflexivity. Qed.
End YearFilter.

Lemma filterMoviesByYear_nonzero_witness :
  map Movie.id (filterMoviesByYear isoYear (Some (JS.Int 1999)) initialStore)
    = ["1"; "6"] /\
  filterMoviesByYear isoYear (Some (JS.Int 1999)) initialStore
    = filter (fun m => JS.strictEq (yearOf isoYear m) (JS.Int 1999))
             (movies initialStore).
Proof.
  split; [reflexivity|].
  apply (filterMoviesByYear_nonzero isoYear 1999 initialStore).
  discriminate.
Defined.

(** C8, as stated, fails at the year 0: on the seeded catalog, read by a
    host in the UTC zone, no movie was released in the year 0, yet
    [filterMoviesByYear(0)] returns all six movies. *)
Lemma filterMoviesByYear_zero_unfiltered :
  filterMoviesByYear isoYear (Some (JS.Int 0)) initialStore
    = movies initialStore /\
  filter (fun m => JS.strictEq (yearOf isoYear m) (JS.Int 0))
         (movies initialStore) = [] /\
  ~ (forall (y : Z) (s : Store) (m : Movie.t),
       In m (filterMoviesByYear isoYear (Some (JS.Int y)) s) <->
       In m (movies s) /\ yearOf isoYear m = JS.Int y).
Proof.
  split; [reflexivity|]. split; [reflexivity|].
  intros H.
  destruct (proj1 (H 0%Z initialStore _) (or_introl eq_refl)) as [_ Hy].
  vm_compute in Hy. discriminate Hy.
Qed.

(** ** The years of the catalog (claim C9) *)

(** *** The insertion sort rearranges its input *)

Section SortFacts.
Context {A : Type}.
Variable comparefn : A -> A -> JS.integer.

Lemma insert_perm (x : A) (l : list A) :
  Permutation (x :: l) (JS.insert comparefn x l).
Proof.
  induction l as [|y ys IH]; simpl; auto.
  destruct (JS.sortCompare comparefn x y <=? 0)%Z; auto.
  rewrite perm_swap. now constructor.
Qed.

Lemma sort_perm (l : list A) : Permutation l (JS.sort comparefn l).
Proof.
  induction l as [|x xs IH]; simpl; auto.
  rewrite <- insert_perm. now constructor.
Qed.

Lemma insert_HdRel (R : A -> A -> Prop) (a x : A) (l : list A) :
  R a x -> HdRel R a l -> HdRel R a (JS.insert comparefn x l).
Proof.
  intros Hax Hl. destruct l as [|y ys]; simpl; [now constructor|].
  destruct (JS.sortCompare comparefn x y <=? 0)%Z; constructor; auto.
  now inversion Hl.
Qed.
End SortFacts.

(** *** [Set] keeps one copy of each value *)

Lemma sameValueZero_eq (a b : JS.integer) :
  JS.sameValueZero a b = true <-> a = b.
Proof.
  destruct a as [x|], b as [y|]; simpl;
    try rewrite Z.eqb_eq; split; congruence.
Qed.

Lemma seen_In (y : JS.integer) (seen : list JS.integer) :
  existsb (JS.sameValueZero y) seen = true <-> In y seen.
Proof.
  rewrite existsb_exists. split.
  - intros (x & Hx & He). apply sameValueZero_eq in He. now subst.
  - intros H. exists y. split; auto. now apply sameValueZero_eq.
Qed.

Lemma setAdd_In (seen : list JS.integer) (y z : JS.integer) :
  In z (JS.setAdd seen y) <-> In z seen \/ z = y.
Proof.
  unfold JS.setAdd.
  destruct (existsb (JS.sameValueZero y) seen) eqn:E.
  - apply seen_In in E. split; [tauto|]. intros [H| ->]; auto.
  - rewrite in_app_iff. simpl. intuition congruence.
Qed.

Lemma setAdd_NoDup (seen : list JS.integer) (y : JS.integer) :
  NoDup seen -> NoDup (JS.setAdd seen y).
Proof.
  intros H. unfold JS.setAdd.
  destruct (existsb (JS.sameValueZero y) seen) eqn:E; auto.
  apply NoDup_app; auto.
  - repeat constructor; auto.
  - intros x Hx [<-|[]]. apply seen_In in Hx. congruence.
Qed.

Lemma fold_setAdd_In (l seen : list JS.integer) (z : JS.integer) :
  In z (fold_left JS.setAdd l seen) <-> In z seen \/ In z l.
Proof.
  revert seen; induction l as [|y ys IH]; intros seen; simpl; [tauto|].
  rewrite IH, setAdd_In. intuition congruence.
Qed.

Lemma fold_setAdd_NoDup (l seen : list JS.integer) :
  NoDup seen -> NoDup (fold_left JS.setAdd l seen).
Proof.
  revert seen; induction l as [|y ys IH]; intros seen H; simpl; auto.
  apply IH. now apply setAdd_NoDup.
Qed.

Lemma distinct_In (l : list JS.integer) (z : JS.integer) :
  In z (JS.distinct l) <-> In z l.
Proof. unfold JS.distinct. rewrite fold_setAdd_In. simpl. tauto. Qed.

Lemma distinct_NoDup (l : list JS.integer) : NoDup (JS.distinct l).
Proof. apply fold_setAdd_NoDup. constructor. Qed.

(** *** Descending order *)

Lemma insert_sorted (x : JS.integer) (l : list JS.integer) :
  parsed x -> Forall parsed l -> Sorted yearGe l ->
  Sorted yearGe (JS.insert newestFirst x l).
Proof.
  intros Hx Hl Hs. induction Hs as [|y ys Hys IH Hhd]; simpl.
  - repeat constructor.
  - inversion Hl as [|? ? Hy Hl']; subst.
    destruct x as [x|]; [|now elim Hx]. destruct y as [y|]; [|now elim Hy].
    unfold JS.sortCompare at 1; simpl.
    destruct (Z.leb_spec (y - x) 0).
    + repeat constructor; auto. simpl. lia.
    + constructor; auto. apply insert_HdRel; auto. simpl. lia.
Qed.

Lemma sort_sorted (l : list JS.integer) :
  Forall parsed l -> Sorted yearGe (JS.sort newestFirst l).
Proof.
  induction 1 as [|x xs Hx Hxs IH]; simpl; [constructor|].
  apply insert_sorted; auto.
  eapply Permutation_Forall; [apply sort_perm | exact Hxs].
Qed.

Lemma sorted_strict (l : list JS.integer) :
  NoDup l -> Sorted yearGe l -> Sorted yearGt l.
Proof.
  intros Hn Hs. induction Hs as [|a l Hl IH Hhd]; [constructor|].
  inversion Hn as [|? ? Ha Hn']; subst. constructor; auto.
  destruct Hhd as [|b l Hab]; constructor.
  destruct a as [x|], b as [y|]; simpl in *; try tauto.
  assert (x <> y) by (intros ->; apply Ha; now left). lia.
Qed.

(** A list of distinct years has one descending arrangement only, so under
    the hypothesis of parsed dates the result does not depend on the sorting
    algorithm the host runs. *)
Lemma yearGt_trans (a b c : JS.integer) :
  yearGt a b -> yearGt b c -> yearGt a c.
Proof. destruct a, b, c; simpl; try tauto. lia. Qed.

Lemma yearGt_asym (a b : JS.integer) : yearGt a b -> yearGt b a -> False.
Proof. destruct a, b; simpl; try tauto. lia. Qed.

Lemma descending_head (a : JS.integer) (l : list JS.integer) :
  Sorted yearGt (a :: l) -> Forall (yearGt a) l.
Proof. apply Sorted_extends. exact yearGt_trans. Qed.

Lemma descending_unique (l l' : list JS.integer) :
  Permutation l l' -> Sorted yearGt l -> Sorted yearGt l' -> l = l'.
Proof.
  revert l'; induction l as [|a l IH]; intros l' Hp Hs Hs'.
  - apply Permutation_nil in Hp. now subst.
  - destruct l' as [|b l'].
    + apply Permutation_sym, Permutation_nil in Hp. discriminate.
    + assert (Hab : a = b).
      { pose proof (descending_head _ _ Hs) as Ha.
        pose proof (descending_head _ _ Hs') as Hb.
        rewrite Forall_forall in Ha, Hb.
        assert (Hina : In a (b :: l'))
          by (eapply Permutation_in; [exact Hp | now left]).
        assert (Hinb : In b (a :: l))
          by (eapply Permutation_in;
              [apply Permutation_sym; exact Hp | now left]).
        destruct Hina as [->|Hina]; auto.
        destruct Hinb as [->|Hinb]; auto.
        exfalso. exact (yearGt_asym _ _ (Ha _ Hinb) (Hb _ Hina)). }
      subst b. f_equal. apply IH.
      * eapply Permutation_cons_inv; exact Hp.
      * now inversion Hs.
      * now inversion Hs'.
Qed.

Section Years.
Variable getFullYear : string -> JS.integer.

(** Whatever the dates, the result lists each release year once. *)
Lemma getMovieYears_distinct (s : Store) :
  NoDup (getMovieYears getFullYear s) /\
  forall y, In y (getMovieYears getFullYear s) <->
            exists m, In m (movies s) /\ yearOf getFullYear m = y.
Proof.
  unfold getMovieYears. split.
  - eapply Permutation_NoDup; [apply sort_perm | apply distinct_NoDup].
  - intros y. rewrite <- (Permutation_in' eq_refl (sort_perm _ _)).
    rewrite distinct_In, in_map_iff. firstorder.
Qed.

(** C9. When every release date of the catalog parses (the store is handed
    validated dates), [getMovieYears] returns a list without duplicates that
    holds the release year of every movie and nothing else, each element
    strictly greater than the next. *)
Theorem getMovieYears_descending (s : Store) :
  Forall (fun m => parsed (yearOf getFullYear m)) (movies s) ->
  NoDup (getMovieYears getFullYear s) /\
  (forall m, In m (movies s) ->
             In (yearOf getFullYear m) (getMovieYears getFullYear s)) /\
  (forall y, In y (getMovieYears getFullYear s) ->
             exists m, In m (movies s) /\ yearOf getFullYear m = y) /\
  Sorted yearGt (getMovieYears getFullYear s).
Proof.
  intros Hp. destruct (getMovieYears_distinct s) as [Hn Hin].
  split; [exact Hn|]. split; [|split].
  - intros m Hm. apply Hin. eauto.
  - intros y Hy. now apply Hin.
  - apply sorted_strict; [exact Hn|]. apply sort_sorted.
    apply Forall_forall. intros y Hy.
    apply distinct_In, in_map_iff in Hy as (m & <- & Hm).
    rewrite Forall_forall in Hp. now apply Hp.
Qed.
(** Any descending arrangement of the distinct years is the list returned. *)
Lemma getMovieYears_any_sort (s : Store) (ys : list JS.integer) :
  Forall (fun m => parsed (yearOf getFullYear m)) (movies s) ->
  Permutation (JS.distinct (map (yearOf getFullYear) (movies s))) ys ->
  Sorted yearGt ys ->
  ys = getMovieYears getFullYear s.
Proof.
  intros Hp Hperm Hs. apply descending_unique; auto.
  - rewrite <- Hperm. apply sort_perm.
  - apply sorted_strict.
    + eapply Permutation_NoDup; [apply sort_perm | apply distinct_NoDup].
    + apply sort_sorted. apply Forall_forall. intros y Hy.
      apply distinct_In, in_map_iff in Hy as (m & <- & Hm).
      rewrite Forall_forall in Hp. now apply Hp.
Qed.
End Years.

Lemma getMovieYears_descending_witness :
  getMovieYears isoYear initialStore
    = [JS.Int 2014; JS.Int 2010; JS.Int 2008; JS.Int 1999; JS.Int 1994] /\
  NoDup (getMovieYears isoYear initialStore) /\
  (forall m, In m (movies initialStore) ->
             In (yearOf isoYear m) (getMovieYears isoYear initialStore)) /\
  (forall y, In y (getMovieYears isoYear initialStore) ->
             exists m, In m (movies initialStore) /\ yearOf isoYear m = y) /\
  Sorted yearGt (getMovieYears isoYear initialStore).
Proof.
  split; [reflexivity|].
  apply (getMovieYears_descending isoYear initialStore).
  repeat constructor; discriminate.
Defined.

(** * Further properties of the data layer *)

(** ** More facts about [find] *)

Section FindFacts.
Context {A : Type}.
Implicit Types (p q : A -> bool) (l : list A).

Lemma find_snoc q l (y : A) :
  find q (l ++ [y]) =
  match find q l with
  | Some x => Some x
  | None => if q y then Some y else None
  end.
Proof.
  induction l as [|x xs IH]; simpl; [reflexivity|].
  destruct (q x); [reflexivity | exact IH].
Qed.

Lemma find_filter_weaker p q l :
  (forall x, q x = true -> p x = true) -> find q (filter p l) = find q l.
Proof.
  intros Hqp; induction l as [|x xs IH]; simpl; [reflexivity|].
  destruct (q x) eqn:Hq.
  - rewrite (Hqp x Hq); simpl. now rewrite Hq.
  - destruct (p x); simpl; [now rewrite Hq | exact IH].
Qed.

Lemma find_filter_disjoint p q l :
  (forall x, q x = true -> p x = false) -> find q (filter p l) = None.
Proof.
  intros Hqp; induction l as [|x xs IH]; simpl; [reflexivity|].
  destruct (p x) eqn:Hp; simpl; [|exact IH].
  destruct (q x) eqn:Hq; [|exact IH].
  rewrite (Hqp x Hq) in Hp. discriminate.
Qed.

(** A search for another key does not see the mutation of the slot found
    under [p]. *)
Lemma find_mutateFound_other p q (f : A -> A) l :
  (forall x, p x = true -> q x = false) ->
  (forall x, p x = true -> q (f x) = false) ->
  find q (JS.mutateFound p f l) = find q l.
Proof.
  intros Hpq Hpf; induction l as [|x xs IH]; simpl; [reflexivity|].
  destruct (p x) eqn:Hp; simpl.
  - now rewrite (Hpq x Hp), (Hpf x Hp).
  - now rewrite IH.
Qed.

Lemma find_split_other q l1 (x y : A) l2 :
  q x = false -> q y = false ->
  find q (l1 ++ x :: l2) = find q (l1 ++ y :: l2).
Proof.
  intros Hx Hy; induction l1 as [|z l1 IH]; simpl.
  - now rewrite Hx, Hy.
  - now rewrite IH.
Qed.

Lemma find_remove_other q l1 (x : A) l2 :
  q x = false -> find q (l1 ++ x :: l2) = find q (l1 ++ l2).
Proof.
  intros Hx; induction l1 as [|z l1 IH]; simpl.
  - now rewrite Hx.
  - now rewrite IH.
Qed.

Lemma find_app_skip q l1 l2 :
  Forall (fun y => q y = false) l1 -> find q (l1 ++ l2) = find q l2.
Proof.
  induction 1 as [|y l1 Hy _ IH]; simpl; [reflexivity|]. now rewrite Hy.
Qed.
End FindFacts.

Lemma eqb_other (a b c : string) :
  a <> b -> String.eqb c a = true -> String.eqb c b = false.
Proof.
  intros Hab Hca. apply String.eqb_eq in Hca. subst c.
  now apply String.eqb_neq.
Qed.

(** ** The store an operation leaves *)

Lemma exec_store (o : Op) (s : Store) :
  exec o s =
  match o with
  | OpAddMovie fields => fst (addMovie fields s)
  | OpAddUser d now => fst (addUser d now s)
  | OpAddToFavorites uid mid => fst (addToFavorites uid mid s)
  | OpRemoveFromFavorites uid mid => fst (removeFromFavorites uid mid s)
  | OpAddRating mid uid r rev => fst (addRating mid uid r rev s)
  | OpUpdateMovie i u => fst (updateMovie i u s)
  | OpDeleteMovie i => fst (deleteMovie i s)
  end.
Proof.
  destruct o; unfold exec, perform; try reflexivity.
  - now destruct (addToFavorites uid mid s).
  - now destruct (removeFromFavorites uid mid s).
  - now destruct (addRating mid uid r rev s).
  - now destruct (updateMovie i u s).
  - now destruct (deleteMovie i s).
Qed.

Lemma updateMovie_null (i : string) (u : MovieUpdates) (s s' : Store) :
  updateMovie i u s = (s', None) -> s' = s.
Proof.
  unfold updateMovie.
  destruct (JS.findIndex (hasMovieId i) (movies s)); [|congruence].
  destruct (nth_error (movies s) n); congruence.
Qed.

Lemma deleteMovie_false (i : string) (s s' : Store) :
  deleteMovie i s = (s', false) -> s' = s.
Proof.
  unfold deleteMovie.
  destruct (JS.findIndex (hasMovieId i) (movies s)); congruence.
Qed.

Lemma addRating_null mid uid r rev (s s' : Store) :
  addRating mid uid r rev s = (s', None) -> s' = s.
Proof. unfold addRating. destruct (getMovieById mid s); congruence. Qed.

Lemma addToFavorites_false (uid mid : string) (s s' : Store) :
  addToFavorites uid mid s = (s', false) -> s' = s.
Proof.
  unfold addToFavorites. destruct (findUser uid s); [|congruence].
  destruct (JS.includes mid (User.favorites t)); congruence.
Qed.

Lemma removeFromFavorites_false (uid mid : string) (s s' : Store) :
  removeFromFavorites uid mid s = (s', false) -> s' = s.
Proof.
  unfold removeFromFavorites. destruct (findUser uid s); congruence.
Qed.

Lemma addToFavorites_movies (uid mid : string) (s : Store) :
  movies (fst (addToFavorites uid mid s)) = movies s.
Proof.
  unfold addToFavorites. destruct (findUser uid s); [|reflexivity].
  now destruct (JS.includes mid (User.favorites t)).
Qed.

Lemma removeFromFavorites_movies (uid mid : string) (s : Store) :
  movies (fst (removeFromFavorites uid mid s)) = movies s.
Proof.
  unfold removeFromFavorites. now destruct (findUser uid s).
Qed.

Lemma addRating_users mid uid r rev (s : Store) :
  users (fst (addRating mid uid r rev s)) = users s.
Proof. unfold addRating. now destruct (getMovieById mid s). Qed.

(** ** Reading back a rating (X1, X2) *)

Lemma getUserRating_addRating_same mid uid r rev (s : Store) (m : Movie.t) :
  getMovieById mid s = Some m ->
  getUserRating mid uid (fst (addRating mid uid r rev s)) = Some (r, rev).
Proof.
  intros Hm. unfold getUserRating.
  rewrite (getMovieById_addRating mid uid r rev s m Hm).
  unfold rate, JS.push; simpl. rewrite find_snoc.
  rewrite find_filter_disjoint; simpl.
  - now rewrite String.eqb_refl.
  - intros x Hx. unfold notBy. now rewrite Hx.
Qed.

(** X1. After [addRating] on a movie of the catalog, [getUserRating] for
    the same movie id and user returns the rating and review just given,
    whatever the user had rated before; for an id the catalog does not have
    it returns [null]. *)
Theorem getUserRating_after_addRating mid uid r rev (s : Store) :
  (getMovieById mid s <> None ->
   getUserRating mid uid (fst (addRating mid uid r rev s)) = Some (r, rev)) /\
  (getMovieById mid s = None ->
   getUserRating mid uid (fst (addRating mid uid r rev s)) = None).
Proof.
  split; intros H.
  - destruct (getMovieById mid s) as [m|] eqn:Hm; [|now elim H].
    now apply (getUserRating_addRating_same mid uid r rev s m).
  - unfold addRating. rewrite H; simpl. unfold getUserRating. now rewrite H.
Qed.

Lemma getUserRating_after_addRating_witness :
  getUserRating "3" "2"
    (fst (addRating "3" "2" 5%Q (Some "again")
            (fst (addRating "3" "2" 1%Q None initialStore))))
  = Some (5%Q, Some "again").
Proof.
  apply (proj1 (getUserRating_after_addRating "3" "2" 5%Q (Some "again")
                  (fst (addRating "3" "2" 1%Q None initialStore)))).
  discriminate.
Defined.

Lemma getMovieById_addRating_other mid uid r rev (s : Store) (j : string) :
  j <> mid ->
  getMovieById j (fst (addRating mid uid r rev s)) = getMovieById j s.
Proof.
  intros Hj. unfold addRating.
  destruct (getMovieById mid s); [|reflexivity].
  unfold getMovieById; simpl. apply find_mutateFound_other.
  - intros x Hx. unfold hasMovieId in *. now apply (eqb_other mid j).
  - intros x Hx. unfold hasMovieId in *. simpl. now apply (eqb_other mid j).
Qed.

Lemma getUserRating_other_pair mid uid r rev (s : Store)
                               (mid' uid' : string) :
  mid' <> mid \/ uid' <> uid ->
  getUserRating mid' uid' (fst (addRating mid uid r rev s))
  = getUserRating mid' uid' s.
Proof.
  intros Hne. destruct (String.eqb_spec mid' mid) as [->|Hm].
  - destruct Hne as [Hne|Hu]; [now elim Hne|].
    unfold getUserRating.
    destruct (getMovieById mid s) as [m|] eqn:Hfound.
    + rewrite (getMovieById_addRating mid uid r rev s m Hfound).
      unfold rate, JS.push; simpl. rewrite find_snoc; simpl.
      rewrite find_filter_weaker.
      * destruct (find _ (Movie.ratings m)); [reflexivity|].
        apply String.eqb_neq in Hu. rewrite String.eqb_sym in Hu.
        now rewrite Hu.
      * intros x Hx. unfold notBy.
        now rewrite (eqb_other uid' uid (userId x)) by auto.
    + unfold addRating. rewrite Hfound; simpl. now rewrite Hfound.
  - unfold getUserRating. now rewrite getMovieById_addRating_other.
Qed.

(** X2. [addRating] for one (movie, user) pair leaves every other pair as
    it was: another user's rating of the same movie, and every rating of
    every other movie id, read back unchanged, and so do the users. *)
Theorem addRating_leaves_others mid uid r rev (s : Store)
                                (mid' uid' : string) :
  mid' <> mid \/ uid' <> uid ->
  getUserRating mid' uid' (fst (addRating mid uid r rev s))
    = getUserRating mid' uid' s /\
  users (fst (addRating mid uid r rev s)) = users s.
Proof.
  intros Hne. split.
  - now apply getUserRating_other_pair.
  - apply addRating_users.
Qed.

Lemma addRating_leaves_others_witness :
  getUserRating "3" "1"
    (fst (addRating "3" "2" 5%Q None
            (fst (addRating "3" "1" 2%Q (Some "slow") initialStore))))
  = Some (2%Q, Some "slow").
Proof.
  destruct (addRating_leaves_others "3" "2" 5%Q None
              (fst (addRating "3" "1" 2%Q (Some "slow") initialStore))
              "3" "1") as [H _].
  - right. discriminate.
  - rewrite H. reflexivity.
Defined.

(** ** Updating a movie (X3, X4) *)

Lemma nth_error_split {A : Type} (l1 : list A) (x : A) (l2 : list A) :
  nth_error (l1 ++ x :: l2) (List.length l1) = Some x.
Proof. induction l1 as [|y l1 IH]; simpl; auto. Qed.

Lemma updateMovie_split (i : string) (u : MovieUpdates) (us : list User.t)
                        (l1 : list Movie.t) (m : Movie.t) (l2 : list Movie.t) :
  hasMovieId i m = true ->
  Forall (fun x => hasMovieId i x = false) l1 ->
  updateMovie i u (mkStore (l1 ++ m :: l2) us)
  = (mkStore (l1 ++ merge m u :: l2) us, Some (merge m u)).
Proof.
  intros Hm Hl1. unfold updateMovie; simpl.
  rewrite (findIndex_split _ _ _ _ Hm Hl1), nth_error_split, assign_split.
  reflexivity.
Qed.

(** X3. [updateMovie] on a known id rewrites the movie found, in its place:
    the merged movie keeps the id, the ratings and both aggregates, the
    catalog keeps its length, its order and its ids, the users are left
    alone, every other id is looked up as before, and the id updated is
    looked up to the merged movie. *)
Theorem updateMovie_keeps_ratings (i : string) (u : MovieUpdates)
                                  (s : Store) (m : Movie.t) :
  getMovieById i s = Some m ->
  exists l1 l2,
    movies s = l1 ++ m :: l2 /\
    updateMovie i u s
      = (mkStore (l1 ++ merge m u :: l2) (users s), Some (merge m u)) /\
    Movie.id (merge m u) = Movie.id m /\
    Movie.ratings (merge m u) = Movie.ratings m /\
    Movie.averageRating (merge m u) = Movie.averageRating m /\
    Movie.totalRatings (merge m u) = Movie.totalRatings m /\
    movieIds (fst (updateMovie i u s)) = movieIds s /\
    getMovieById i (fst (updateMovie i u s)) = Some (merge m u) /\
    (forall j, j <> i ->
       getMovieById j (fst (updateMovie i u s)) = getMovieById j s).
Proof.
  intros H. unfold getMovieById in H.
  destruct (find_split _ _ _ H) as (l1 & l2 & Hl & Hm & Hl1).
  exists l1, l2. destruct s as [ms us]; simpl in *; subst ms.
  rewrite (updateMovie_split i u us l1 m l2 Hm Hl1).
  repeat split; simpl.
  - unfold movieIds; simpl. now rewrite !map_app.
  - unfold getMovieById; simpl. now apply find_app_first.
  - intros j Hj. unfold getMovieById; simpl.
    apply (find_split_other (hasMovieId j)); unfold hasMovieId in *; simpl;
      apply (eqb_other i j (Movie.id m)); congruence.
Qed.

Lemma updateMovie_keeps_ratings_witness :
  exists m',
    snd (updateMovie "1" (mkMovieUpdates (Some "Matrix") None None None)
           (run scenarioOps (fst (addRating "1" "2" 3%Q None initialStore))))
      = Some m' /\
    Movie.title m' = "Matrix" /\ Movie.releaseDate m' = "1999-03-31" /\
    map rating (Movie.ratings m') = [3%Q] /\ Movie.totalRatings m' = 1.
Proof.
  destruct (updateMovie_keeps_ratings "1"
              (mkMovieUpdates (Some "Matrix") None None None)
              (run scenarioOps (fst (addRating "1" "2" 3%Q None initialStore)))
              _ eq_refl)
    as (l1 & l2 & _ & Hu & _ & Hr & _ & Ht & _).
  eexists. rewrite Hu. split; [reflexivity|].
  split; [reflexivity|]. split; [reflexivity|].
  rewrite Hr, Ht. split; reflexivity.
Defined.

Lemma merge_twice (m : Movie.t) (u : MovieUpdates) :
  merge (merge m u) u = merge m u.
Proof.
  unfold merge; simpl. destruct u as [[t|] [d|] [img|] [rd|]]; reflexivity.
Qed.

Lemma merge_nothing (m : Movie.t) :
  merge m (mkMovieUpdates None None None None) = m.
Proof. now destruct m. Qed.

(** X4. Applying the same update a second time changes nothing more, and
    an update that carries no field returns the movie found and the store
    untouched. *)
Theorem updateMovie_idempotent (i : string) (u : MovieUpdates) (s : Store) :
  updateMovie i u (fst (updateMovie i u s))
    = (fst (updateMovie i u s), snd (updateMovie i u s)) /\
  updateMovie i (mkMovieUpdates None None None None) s
    = (s, getMovieById i s).
Proof.
  destruct (getMovieById i s) as [m|] eqn:H; unfold getMovieById in H.
  - destruct (find_split _ _ _ H) as (l1 & l2 & Hl & Hm & Hl1).
    destruct s as [ms us]; simpl in *; subst ms.
    rewrite !(updateMovie_split i _ us l1 m l2 Hm Hl1); simpl.
    split.
    + rewrite (updateMovie_split i u us l1 (merge m u) l2); auto.
      now rewrite merge_twice.
    + now rewrite merge_nothing.
  - apply findIndex_None in H. unfold updateMovie. rewrite H; simpl.
    now rewrite H.
Qed.

(** ** Lookups after deletion and creation (X5, X6) *)

Lemma find_map_same_key {A : Type} (q : A -> bool) (g : A -> A) (l : list A) :
  (forall x, q (g x) = q x) -> find q (map g l) = option_map g (find q l).
Proof.
  intros Hg; induction l as [|x xs IH]; simpl; [reflexivity|].
  rewrite Hg. destruct (q x); [reflexivity | exact IH].
Qed.

Lemma includes_dropId_other (i mid : string) (favs : list string) :
  mid <> i -> JS.includes mid (dropId i favs) = JS.includes mid favs.
Proof.
  intros Hne. destruct (JS.includes mid favs) eqn:E.
  - apply includes_In. apply dropId_In. split; [now apply includes_In | exact Hne].
  - apply includes_false. apply includes_false in E.
    rewrite dropId_In. tauto.
Qed.

Lemma find_none_not_in_ids (i : string) (l : list Movie.t) :
  ~ In i (map Movie.id l) -> find (hasMovieId i) l = None.
Proof.
  intros Hno. destruct (find (hasMovieId i) l) as [x|] eqn:Hf; [|reflexivity].
  apply find_some in Hf as [Hin Hx]. apply String.eqb_eq in Hx.
  elim Hno. apply in_map_iff. eauto.
Qed.

(** X5. After [deleteMovie(i)] every other movie id is looked up as before
    and every other favorite of every user is still a favorite. When the id
    was known, a lookup of [i] itself finds what the rest of the catalog,
    past the removed movie, holds under that id: nothing when the ids of the
    catalog are distinct, the next movie carrying the id otherwise. *)
Theorem deleteMovie_leaves_others (i : string) (s : Store) :
  (forall j, j <> i ->
     getMovieById j (fst (deleteMovie i s)) = getMovieById j s) /\
  (forall uid mid, mid <> i ->
     isMovieFavorited uid mid (fst (deleteMovie i s))
       = isMovieFavorited uid mid s) /\
  (forall m, getMovieById i s = Some m ->
     exists l1 l2,
       movies s = l1 ++ m :: l2 /\
       getMovieById i (fst (deleteMovie i s)) = find (hasMovieId i) l2 /\
       (NoDup (movieIds s) -> getMovieById i (fst (deleteMovie i s)) = None)).
Proof.
  destruct (getMovieById i s) as [m|] eqn:H; unfold getMovieById in H.
  - destruct (find_split _ _ _ H) as (l1 & l2 & Hl & Hm & Hl1).
    destruct s as [ms us]; simpl in *; subst ms.
    unfold deleteMovie; simpl.
    rewrite (findIndex_split _ _ _ _ Hm Hl1); simpl.
    rewrite splice1_split.
    split; [|split].
    + intros j Hj. unfold getMovieById; simpl.
      symmetry. apply find_remove_other.
      unfold hasMovieId in *.
      apply (eqb_other i j (Movie.id m)); congruence.
    + intros uid mid Hne. unfold isMovieFavorited, findUser; simpl.
      rewrite find_map_same_key by reflexivity.
      destruct (find (hasUserId uid) us); simpl; [|reflexivity].
      now apply includes_dropId_other.
    + intros m0 Hm0. injection Hm0 as <-. exists l1, l2.
      split; [reflexivity|].
      assert (Hfind : getMovieById i (mkStore (l1 ++ l2) (map
                 (fun u => User.setFavorites (dropId i (User.favorites u)) u)
                 us)) = find (hasMovieId i) l2).
      { unfold getMovieById; simpl. now apply find_app_skip. }
      split; [exact Hfind|].
      intros Hnd. rewrite Hfind. apply find_none_not_in_ids.
      unfold movieIds in Hnd; simpl in Hnd. rewrite map_app in Hnd.
      apply NoDup_remove_2 in Hnd. simpl in Hnd.
      apply String.eqb_eq in Hm. rewrite Hm in Hnd.
      intros Hin. apply Hnd. apply in_or_app. now right.
  - apply findIndex_None in H. unfold deleteMovie. rewrite H; simpl.
    split; [reflexivity|]. split; [reflexivity|].
    intros m Hm. apply findIndex_None in H. unfold getMovieById in Hm.
    congruence.
Qed.

(** The ids 2,3,4,5,6,6 that claim C2's script reaches. *)
Lemma deleteMovie_leaves_others_witness :
  let s := fst (addMovie sampleFields (exec (OpDeleteMovie "1") initialStore)) in
  option_map Movie.title (getMovieById "6" s) = Some "Fight Club" /\
  option_map Movie.title (getMovieById "6" (fst (deleteMovie "6" s)))
    = Some "X" /\
  option_map Movie.title (getMovieById "5" (fst (deleteMovie "6" s)))
    = Some "Pulp Fiction".
Proof.
  cbv zeta. split; [reflexivity|]. split; [reflexivity|].
  rewrite (proj1 (deleteMovie_leaves_others "6" _) "5"); [reflexivity|].
  discriminate.
Defined.

(** X6. A lookup after [addMovie] finds what it found before; only an id
    the catalog did not have, and only if it is the id just assigned, finds
    the new movie. A new movie whose id is already taken cannot be looked
    up. *)
Theorem getMovieById_after_addMovie (fields : MovieFields) (s : Store)
                                    (j : string) :
  getMovieById j (fst (addMovie fields s)) =
  match getMovieById j s with
  | Some m => Some m
  | None =>
      if String.eqb (JS.toString (List.length (movies s) + 1)) j
      then Some (snd (addMovie fields s)) else None
  end.
Proof.
  unfold getMovieById, addMovie, JS.push; simpl. rewrite find_snoc.
  reflexivity.
Qed.

(** ** Users (X7, X8, X9) *)

Lemma toString_seq_NoDup (a n : nat) : NoDup (map JS.toString (seq a n)).
Proof.
  revert a; induction n as [|n IH]; intros a; simpl; constructor; auto.
  intros Hin. apply in_map_iff in Hin as (k & Hk & Hin).
  apply toString_inj in Hk. apply in_seq in Hin. lia.
Qed.

Lemma mutateFound_userIds (p : User.t -> bool) (g : list string -> list string)
                          (l : list User.t) :
  map User.id
    (JS.mutateFound p (fun u => User.setFavorites (g (User.favorites u)) u) l)
  = map User.id l.
Proof.
  induction l as [|x xs IH]; simpl; [reflexivity|].
  destruct (p x); simpl; congruence.
Qed.

(** What an operation does to the list of user ids: [addUser] appends the
    next number, nothing else touches it. *)
Lemma userIds_exec (o : Op) (s : Store) :
  map User.id (users (exec o s)) =
  match o with
  | OpAddUser _ _ =>
      map User.id (users s) ++ [JS.toString (List.length (users s) + 1)]
  | _ => map User.id (users s)
  end.
Proof.
  destruct o; unfold exec; simpl; auto.
  - unfold JS.push. now rewrite map_app.
  - unfold addToFavorites. destruct (findUser uid s); auto.
    destruct (JS.includes mid (User.favorites t)); auto.
    simpl. apply mutateFound_userIds.
  - unfold removeFromFavorites. destruct (findUser uid s); auto.
    simpl. apply mutateFound_userIds.
  - unfold addRating. now destruct (getMovieById mid s).
  - unfold updateMovie. destruct (JS.findIndex (hasMovieId i) (movies s)); auto.
    now destruct (nth_error (movies s) n).
  - unfold deleteMovie. destruct (JS.findIndex (hasMovieId i) (movies s)); auto.
    simpl. rewrite map_map. reflexivity.
Qed.

Lemma sequentialUserIds_exec (o : Op) (s : Store) :
  sequentialUserIds s -> sequentialUserIds (exec o s).
Proof.
  unfold sequentialUserIds. intros Hs.
  assert (Hlen : forall st, List.length (users st)
                            = List.length (map User.id (users st)))
    by (intros; now rewrite length_map).
  rewrite (Hlen (exec o s)), userIds_exec.
  destruct o; try (rewrite <- Hlen; exact Hs).
  rewrite length_app, <- Hlen, Hs at 1; simpl.
  replace (List.length (users s) + 1) with (S (List.length (users s))) by lia.
  now rewrite seq_S, map_app.
Qed.

(** X7. User ids never collide: in every reachable store the ids of the
    users are the decimal numbers 1 to n in order of creation, hence
    pairwise distinct, and the user [addUser] creates next is the one a
    lookup of its id finds. (No operation removes a user, which is what
    makes the count-based id safe here and not for movies.) *)
Theorem user_ids_sequential (s : Store) :
  reachable s ->
  sequentialUserIds s /\
  NoDup (map User.id (users s)) /\
  forall d now,
    findUser (User.id (snd (addUser d now s))) (fst (addUser d now s))
    = Some (snd (addUser d now s)).
Proof.
  intros Hr.
  assert (Hs : sequentialUserIds s).
  { induction Hr as [|o s _ IH]; [reflexivity|].
    now apply sequentialUserIds_exec. }
  split; [exact Hs|]. split.
  - rewrite Hs. apply toString_seq_NoDup.
  - intros d now. unfold findUser, addUser, JS.push; simpl.
    rewrite find_snoc.
    replace (find _ (users s)) with (@None User.t).
    + unfold hasUserId; simpl. now rewrite String.eqb_refl.
    + symmetry.
      destruct (find (hasUserId (JS.toString (List.length (users s) + 1)))
                     (users s)) as [x|] eqn:Hf; [|reflexivity].
      apply find_some in Hf as [Hin Hx]. apply String.eqb_eq in Hx.
      assert (Hid : In (User.id x) (map User.id (users s)))
        by (apply in_map_iff; eauto).
      rewrite Hs, Hx in Hid. apply in_map_iff in Hid as (k & Hk & Hin').
      apply toString_inj in Hk. apply in_seq in Hin'. lia.
Qed.

Lemma user_ids_sequential_witness :
  map User.id (users (exec (OpAddUser newcomer "2025-01-01T00:00:00.000Z")
                           initialStore))
    = ["1"; "2"; "3"] /\
  sequentialUserIds
    (exec (OpAddUser newcomer "2025-01-01T00:00:00.000Z") initialStore).
Proof.
  split; [reflexivity|].
  apply (user_ids_sequential
           (exec (OpAddUser newcomer "2025-01-01T00:00:00.000Z") initialStore)).
  apply reach_step, reach_init.
Defined.

(** X8. [addUser] does not look at the e-mail addresses already present:
    after it, [getUserByEmail] still answers with the account it answered
    with before, and answers with the new account only for the new address
    and only if no earlier account has it. A second account created under
    an address already in use is never found by e-mail. *)
Theorem getUserByEmail_after_addUser (d : UserData) (now e : string)
                                     (s : Store) :
  getUserByEmail e (fst (addUser d now s)) =
  match getUserByEmail e s with
  | Some u => Some u
  | None => if String.eqb (d_email d) e
            then Some (snd (addUser d now s)) else None
  end.
Proof.
  unfold getUserByEmail, addUser, JS.push; simpl. rewrite find_snoc.
  reflexivity.
Qed.

Lemma accounts_exec (o : Op) (s : Store) :
  map account (users (exec o s)) =
  map account (users s) ++
  match o with
  | OpAddUser d now => [account (snd (addUser d now s))]
  | _ => []
  end.
Proof.
  assert (Hmut : forall p g (l : list User.t),
    map account
      (JS.mutateFound p (fun u => User.setFavorites (g (User.favorites u)) u) l)
    = map account l).
  { intros p g l. induction l as [|x xs IH]; simpl; [reflexivity|].
    destruct (p x); simpl; [reflexivity | now rewrite IH]. }
  rewrite exec_store. destruct o; simpl; rewrite ?app_nil_r.
  - reflexivity.
  - unfold JS.push. now rewrite map_app.
  - unfold addToFavorites. destruct (findUser uid s); auto.
    destruct (JS.includes mid (User.favorites t)); auto. apply Hmut.
  - unfold removeFromFavorites. destruct (findUser uid s); auto. apply Hmut.
  - now rewrite addRating_users.
  - unfold updateMovie. destruct (JS.findIndex (hasMovieId i) (movies s)); auto.
    now destruct (nth_error (movies s) n).
  - unfold deleteMovie. destruct (JS.findIndex (hasMovieId i) (movies s)); auto.
    simpl. rewrite map_map. reflexivity.
Qed.

(** X9. No operation removes an account or rewrites one: after any
    operation the accounts (id, e-mail, name, password hash, role, creation
    time) of the store are those it had, in the same order, followed by at
    most one new account. *)
Theorem accounts_persist (o : Op) (s : Store) :
  exists extra,
    map account (users (exec o s)) = map account (users s) ++ extra /\
    List.length extra <= 1.
Proof.
  rewrite accounts_exec. eexists. split; [reflexivity|].
  destruct o; simpl; lia.
Qed.

(** ** Favorites (X10, X11, X12) *)

Lemma exec_favoritesDistinct (o : Op) (s : Store) :
  favoritesDistinct s -> favoritesDistinct (exec o s).
Proof.
  unfold favoritesDistinct. intros H. destruct o; unfold exec; simpl; auto.
  - unfold JS.push. apply Forall_app. split; [exact H|].
    repeat constructor.
  - unfold addToFavorites. destruct (findUser uid s) as [u|] eqn:Hu; auto.
    destruct (JS.includes mid (User.favorites u)) eqn:Hinc; auto. simpl.
    unfold findUser in Hu.
    destruct (find_split _ _ _ Hu) as (l1 & l2 & Hl & Hp & Hl1).
    rewrite Hl in *. rewrite (mutateFound_split _ _ _ _ _ Hp Hl1).
    apply Forall_app in H as [H1 H2]. inversion H2 as [|? ? Hx Hl2]; subst.
    apply Forall_app. split; [exact H1|]. constructor; [|exact Hl2].
    simpl. unfold JS.push. apply NoDup_app; auto.
    + repeat constructor. intros [].
    + intros a Ha [<-|[]]. apply includes_false in Hinc. contradiction.
  - unfold removeFromFavorites. destruct (findUser uid s); auto. simpl.
    apply mutateFound_Forall; auto.
    intros x Hx. simpl. unfold dropId. now apply NoDup_filter.
  - unfold addRating. now destruct (getMovieById mid s).
  - unfold updateMovie. destruct (JS.findIndex (hasMovieId i) (movies s)); auto.
    now destruct (nth_error (movies s) n).
  - unfold deleteMovie. destruct (JS.findIndex (hasMovieId i) (movies s)); auto.
    simpl. apply Forall_map. eapply Forall_impl; [|exact H].
    intros x Hx. simpl. unfold dropId. now apply NoDup_filter.
Qed.

(** X10. The favorites of a user behave as a set: in every reachable store
    no user holds the same movie id twice. *)
Theorem favorites_distinct (s : Store) :
  reachable s -> favoritesDistinct s.
Proof.
  induction 1 as [|o s _ IH].
  - repeat constructor.
  - now apply exec_favoritesDistinct.
Qed.

Lemma favorites_distinct_witness :
  favoritesDistinct
    (run [ OpAddToFavorites "2" "5"; OpAddToFavorites "2" "5";
           OpAddToFavorites "2" "1" ] initialStore).
Proof. apply favorites_distinct. apply reachable_run, reach_init. Defined.

Lemma includes_push_other (mid mid' : string) (favs : list string) :
  mid' <> mid ->
  JS.includes mid' (JS.push mid favs) = JS.includes mid' favs.
Proof.
  intros Hne. unfold JS.includes, JS.push. rewrite existsb_app; simpl.
  apply String.eqb_neq in Hne. rewrite Hne.
  now rewrite !orb_false_r.
Qed.

Lemma isMovieFavorited_mutateFound (uid uid' mid' : string)
                                   (g : list string -> list string)
                                   (s : Store) :
  (uid' = uid -> forall favs, JS.includes mid' (g favs) = JS.includes mid' favs) ->
  isMovieFavorited uid' mid'
    (mkStore (movies s)
       (JS.mutateFound (hasUserId uid)
          (fun u => User.setFavorites (g (User.favorites u)) u) (users s)))
  = isMovieFavorited uid' mid' s.
Proof.
  intros Hg. unfold isMovieFavorited.
  destruct (String.eqb_spec uid' uid) as [->|Hu].
  - unfold findUser at 1; simpl.
    rewrite findUser_mutateFound. destruct (findUser uid s); simpl; auto.
  - unfold findUser; simpl. rewrite find_mutateFound_other; auto;
      intros x Hx; unfold hasUserId in *; simpl;
      apply (eqb_other uid uid' (User.id x)); congruence.
Qed.

(** X11. Adding or removing one favorite touches nothing else: the catalog
    is unchanged, and for every other (user, movie) pair [isMovieFavorited]
    answers as before. *)
Theorem favorites_leave_others (uid mid : string) (s : Store)
                               (uid' mid' : string) :
  uid' <> uid \/ mid' <> mid ->
  isMovieFavorited uid' mid' (fst (addToFavorites uid mid s))
    = isMovieFavorited uid' mid' s /\
  isMovieFavorited uid' mid' (fst (removeFromFavorites uid mid s))
    = isMovieFavorited uid' mid' s /\
  movies (fst (addToFavorites uid mid s)) = movies s /\
  movies (fst (removeFromFavorites uid mid s)) = movies s.
Proof.
  intros Hne.
  assert (Hmid : uid' = uid -> mid' <> mid) by (intros ->; tauto).
  unfold addToFavorites, removeFromFavorites.
  destruct (findUser uid s) as [u|]; [|repeat split].
  assert (Hrm : isMovieFavorited uid' mid'
                  (mkStore (movies s)
                     (JS.mutateFound (hasUserId uid)
                        (fun u => User.setFavorites
                                    (dropId mid (User.favorites u)) u)
                        (users s)))
                = isMovieFavorited uid' mid' s).
  { apply (isMovieFavorited_mutateFound uid uid' mid' (dropId mid)).
    intros He favs. apply includes_dropId_other. auto. }
  destruct (JS.includes mid (User.favorites u)); simpl.
  - repeat split. exact Hrm.
  - split; [|split; [exact Hrm | split; reflexivity]].
    apply (isMovieFavorited_mutateFound uid uid' mid' (JS.push mid)).
    intros He favs. apply includes_push_other. auto.
Qed.

Lemma favorites_leave_others_witness :
  isMovieFavorited "2" "5"
    (fst (removeFromFavorites "2" "2" outOfOrderFavorites)) = true.
Proof.
  destruct (favorites_leave_others "2" "2" outOfOrderFavorites "2" "5")
    as (_ & H & _).
  - right. discriminate.
  - rewrite H. reflexivity.
Defined.

Lemma existsb_filter_id (mid : string) (favs : list string)
                        (l : list Movie.t) :
  existsb (hasMovieId mid)
    (filter (fun m => JS.includes (Movie.id m) favs) l)
  = JS.includes mid favs && existsb (hasMovieId mid) l.
Proof.
  induction l as [|x xs IH]; simpl; [now rewrite andb_false_r|].
  destruct (hasMovieId mid x) eqn:Hx.
  - unfold hasMovieId in Hx. apply String.eqb_eq in Hx. rewrite Hx.
    destruct (JS.includes mid favs) eqn:Hinc; simpl.
    + unfold hasMovieId at 1. now rewrite Hx, String.eqb_refl.
    + rewrite IH. reflexivity.
  - destruct (JS.includes (Movie.id x) favs); simpl; rewrite ?Hx; exact IH.
Qed.

(** X12. The movie page decides whether to show a movie as favorited by
    searching the list of favorite movies for its id. That test agrees with
    [isMovieFavorited] for every movie of the catalog, and answers [false]
    for an id the catalog does not have even when the id is among the
    user's favorites. *)
Theorem listedAsFavorite_agrees (uid mid : string) (s : Store) :
  listedAsFavorite mid (getFavoriteMovies uid s)
  = isMovieFavorited uid mid s && existsb (hasMovieId mid) (movies s).
Proof.
  unfold listedAsFavorite, getFavoriteMovies, isMovieFavorited.
  destruct (findUser uid s); [apply existsb_filter_id | reflexivity].
Qed.

(** ** The average lies among the ratings (X13) *)





(** ** The year list and the year filter (X14) *)

Section YearsAndFilter.
Variable getFullYear : string -> JS.integer.

(** X14. The year list and the year filter fit together: for a non-zero
    year, [filterMoviesByYear] returns at least one movie exactly when the
    year is in the list [getMovieYears] returns. *)
Theorem listed_years_select_movies (y : Z) (s : Store) :
  y <> 0%Z ->
  (In (JS.Int y) (getMovieYears getFullYear s) <->
   filterMoviesByYear getFullYear (Some (JS.Int y)) s <> []).
Proof.
  intros Hy. destruct (getMovieYears_distinct getFullYear s) as [_ Hin].
  rewrite Hin. unfold filterMoviesByYear; simpl.
  apply Z.eqb_neq in Hy. rewrite Hy. split.
  - intros (m & Hm & Hyear) Hnil.
    assert (Hf : In m (filter (fun m0 => JS.strictEq (yearOf getFullYear m0)
                                           (JS.Int y)) (movies s))).
    { apply filter_In. split; [exact Hm|]. now apply strictEq_Int. }
    rewrite Hnil in Hf. destruct Hf.
  - intros Hne.
    destruct (filter _ (movies s)) as [|m l] eqn:Hf; [now elim Hne|].
    assert (Hm : In m (filter (fun m0 => JS.strictEq (yearOf getFullYear m0)
                                           (JS.Int y)) (movies s)))
      by (rewrite Hf; now left).
    apply filter_In in Hm as [Hm Hyear]. exists m. split; [exact Hm|].
    now apply strictEq_Int.
Qed.
End YearsAndFilter.

Lemma listed_years_select_movies_witness :
  In (JS.Int 2008) (getMovieYears isoYear initialStore) /\
  filterMoviesByYear isoYear (Some (JS.Int 2008)) initialStore <> [].
Proof.
  assert (H : In (JS.Int 2008) (getMovieYears isoYear initialStore))
    by (vm_compute; tauto).
  split; [exact H|].
  assert (Hy : 2008%Z <> 0%Z) by discriminate.
  exact (proj1 (listed_years_select_movies isoYear 2008 initialStore Hy) H).
Defined.

(** * The routes *)

(** ** Every request is at most one operation of the store *)


Lemma serve_operation (h : Host.t) (r : Request) (s : Store) :
  fst (serve h r s) = perhaps (operationOf h r) s.
Proof.
  destruct r; try reflexivity; unfold serve, operationOf.
  - unfold MoviesRoute.POST.
    destruct session as [se|], body as [b|]; try reflexivity;
      destruct (isAdmin se); try reflexivity.
    now destruct (movieSchema h b).
  - unfold MovieRoute.PUT.
    destruct session as [se|], body as [b|]; try reflexivity;
      destruct (isAdmin se); try reflexivity.
    destruct (movieUpdateSchema h b) as [u|]; [|reflexivity].
    unfold perhaps, option_map, exec, perform.
    now destruct (updateMovie id u s) as [s' [m|]].
  - unfold MovieRoute.DELETE.
    destruct session as [se|]; try reflexivity.
    destruct (isAdmin se); try reflexivity.
    unfold perhaps, exec, perform.
    now destruct (deleteMovie id s) as [s' [|]].
  - unfold RatingsRoute.POST.
    destruct (sessionUserId session) as [uid|], body as [b|];
      try reflexivity; try (now destruct (truthy (Some uid))).
    destruct (ratingSchema b) as [[[mid q] rev]|];
      destruct (truthy (Some uid)); try reflexivity.
    unfold perhaps, exec, perform.
    now destruct (addRating mid uid q rev s) as [s' [m|]].
  - unfold FavoritesRoute.POST.
    destruct (sessionUserId session) as [uid|], body as [b|];
      try reflexivity; try (now destruct (truthy (Some uid))).
    destruct (fb_movieId b) as [mid|];
      destruct (truthy (Some uid)); try reflexivity.
    destruct (truthy (Some mid)); try reflexivity.
    unfold perhaps, exec, perform; cbn [andb].
    now destruct (addToFavorites uid mid s) as [s' [|]].
  - unfold FavoritesRoute.DELETE.
    destruct (sessionUserId session) as [uid|], body as [b|];
      try reflexivity; try (now destruct (truthy (Some uid))).
    destruct (fb_movieId b) as [mid|];
      destruct (truthy (Some uid)); try reflexivity.
    destruct (truthy (Some mid)); try reflexivity.
    unfold perhaps, exec, perform; cbn [andb].
    now destruct (removeFromFavorites uid mid s) as [s' [|]].
Qed.


Lemma served_serveAll (h : Host.t) (rs : list Request) (s : Store) :
  served h s -> served h (serveAll h rs s).
Proof.
  revert s; induction rs as [|r rs IH]; simpl; intros s H; auto.
  apply IH. now constructor.
Qed.






(** ** Refused requests (X15) *)

(** X15. A request answered with anything but a success status (401, 403,
    400, 404, 500) leaves the store exactly as it was: every handler checks
    the session, the body and the ids before the store is written. *)
Theorem refused_requests_change_nothing (h : Host.t) (r : Request)
                                        (s : Store) :
  responseOk (snd (serve h r s)) = false -> fst (serve h r s) = s.
Proof.
  destruct r; simpl; auto.
  - unfold MoviesRoute.POST. destruct session as [se|]; auto.
    destruct (isAdmin se); simpl; auto. destruct body as [b|]; auto.
    destruct (movieSchema h b) as [f|]; auto. simpl. discriminate.
  - unfold MovieRoute.PUT. destruct session as [se|]; auto.
    destruct (isAdmin se); simpl; auto. destruct body as [b|]; auto.
    destruct (movieUpdateSchema h b) as [u|]; auto.
    destruct (updateMovie id u s) as [s' [m|]] eqn:E; simpl;
      [discriminate|]. intros _. now apply updateMovie_null in E.
  - unfold MovieRoute.DELETE. destruct session as [se|]; auto.
    destruct (isAdmin se); simpl; auto.
    destruct (deleteMovie id s) as [s' [|]] eqn:E; simpl; [discriminate|].
    intros _. now apply deleteMovie_false in E.
  - unfold RatingsRoute.POST. destruct (sessionUserId session) as [uid|]; auto.
    destruct (truthy (Some uid)); auto. destruct body as [b|]; auto.
    destruct (ratingSchema b) as [[[mid q] rev]|]; auto.
    destruct (addRating mid uid q rev s) as [s' [m|]] eqn:E; simpl;
      [discriminate|]. intros _. now apply addRating_null in E.
  - unfold FavoritesRoute.POST.
    destruct (sessionUserId session) as [uid|]; auto.
    destruct (truthy (Some uid)); auto. destruct body as [b|]; auto.
    destruct (fb_movieId b) as [mid|]; auto.
    destruct (truthy (Some mid)); auto.
    destruct (addToFavorites uid mid s) as [s' [|]] eqn:E; simpl;
      [discriminate|]. intros _. now apply addToFavorites_false in E.
  - unfold FavoritesRoute.DELETE.
    destruct (sessionUserId session) as [uid|]; auto.
    destruct (truthy (Some uid)); auto. destruct body as [b|]; auto.
    destruct (fb_movieId b) as [mid|]; auto.
    destruct (truthy (Some mid)); auto.
    destruct (removeFromFavorites uid mid s) as [s' [|]] eqn:E; simpl;
      [discriminate|]. intros _. now apply removeFromFavorites_false in E.
Qed.

Lemma refused_requests_change_nothing_witness :
  status (snd (serve sampleHost (RatingsPOST demoSession (Some tenStars))
                     initialStore)) = 400 /\
  fst (serve sampleHost (RatingsPOST demoSession (Some tenStars)) initialStore)
  = initialStore.
Proof.
  split; [reflexivity|].
  apply (refused_requests_change_nothing sampleHost
           (RatingsPOST demoSession (Some tenStars)) initialStore).
  reflexivity.
Defined.

(** ** Who can change what (X16, X17) *)

Lemma mutateFound_entries (p : Movie.t -> bool) (f : Movie.t -> Movie.t)
                          (l : list Movie.t) :
  (forall m, catalogEntry (f m) = catalogEntry m) ->
  map catalogEntry (JS.mutateFound p f l) = map catalogEntry l.
Proof.
  intros Hf; induction l as [|x xs IH]; simpl; [reflexivity|].
  destruct (p x); simpl; congruence.
Qed.

Lemma addRating_entries mid uid r rev (s : Store) :
  map catalogEntry (movies (fst (addRating mid uid r rev s)))
  = map catalogEntry (movies s).
Proof.
  unfold addRating. destruct (getMovieById mid s); [|reflexivity].
  simpl. now apply mutateFound_entries.
Qed.



(** The store a route leaves, when it got as far as the store function. *)
Lemma fst_match_option {A B : Type} (p : Store * option A)
                       (f : Store -> B) (g : Store -> A -> B) :
  fst (match p with
       | (s', None) => (s', f s')
       | (s', Some x) => (s', g s' x)
       end) = fst p.
Proof. now destruct p as [s' [x|]]. Qed.

Lemma fst_match_bool {B : Type} (p : Store * bool) (f g : Store -> B) :
  fst (match p with
       | (s', false) => (s', f s')
       | (s', true) => (s', g s')
       end) = fst p.
Proof. now destruct p as [s' [|]]. Qed.

(** X16. Only an administrator's request changes the catalog proper: after
    a request whose session does not carry the role 'admin' (or carries no
    session at all) the catalog holds the same movies in the same order,
    each with its id, title, description, image and release date; such a
    request can change ratings and favorites only. *)
Theorem only_admin_changes_catalog (h : Host.t) (r : Request) (s : Store) :
  fromAdmin r = false ->
  map catalogEntry (movies (fst (serve h r s)))
  = map catalogEntry (movies s).
Proof.
  destruct r; simpl; auto; unfold fromAdmin; simpl.
  - unfold MoviesRoute.POST. destruct session as [se|]; auto.
    now intros ->.
  - unfold MovieRoute.PUT. destruct session as [se|]; auto.
    now intros ->.
  - unfold MovieRoute.DELETE. destruct session as [se|]; auto.
    now intros ->.
  - intros _. unfold RatingsRoute.POST.
    destruct (sessionUserId session) as [uid|]; auto.
    destruct (truthy (Some uid)); auto. destruct body as [b|]; auto.
    destruct (ratingSchema b) as [[[mid q] rev]|]; auto.
    rewrite fst_match_option. apply addRating_entries.
  - intros _. unfold FavoritesRoute.POST.
    destruct (sessionUserId session) as [uid|]; auto.
    destruct (truthy (Some uid)); auto. destruct body as [b|]; auto.
    destruct (fb_movieId b) as [mid|]; auto.
    destruct (truthy (Some mid)); auto.
    rewrite fst_match_bool. now rewrite addToFavorites_movies.
  - intros _. unfold FavoritesRoute.DELETE.
    destruct (sessionUserId session) as [uid|]; auto.
    destruct (truthy (Some uid)); auto. destruct body as [b|]; auto.
    destruct (fb_movieId b) as [mid|]; auto.
    destruct (truthy (Some mid)); auto.
    rewrite fst_match_bool. now rewrite removeFromFavorites_movies.
Qed.

Lemma only_admin_changes_catalog_witness :
  map catalogEntry
    (movies (fst (serve sampleHost (MoviesPOST demoSession (Some sampleMovieBody))
                        (serveAll sampleHost [RatingsPOST demoSession
                                                (Some fourStars)]
                                  initialStore))))
  = map catalogEntry (movies initialStore).
Proof.
  rewrite (only_admin_changes_catalog sampleHost
             (MoviesPOST demoSession (Some sampleMovieBody))); [|reflexivity].
  apply (only_admin_changes_catalog sampleHost
           (RatingsPOST demoSession (Some fourStars)) initialStore).
  reflexivity.
Defined.



Lemma getUserRating_same_movies (mid uid : string) (s s' : Store) :
  movies s' = movies s -> getUserRating mid uid s' = getUserRating mid uid s.
Proof. unfold getUserRating, getMovieById. now intros ->. Qed.

Lemma isMovieFavorited_same_users (uid mid : string) (s s' : Store) :
  users s' = users s ->
  isMovieFavorited uid mid s' = isMovieFavorited uid mid s.
Proof. unfold isMovieFavorited, findUser. now intros ->. Qed.

Lemma addToFavorites_other_user (uid mid uid' mid' : string) (s : Store) :
  uid' <> uid ->
  isMovieFavorited uid' mid' (fst (addToFavorites uid mid s))
  = isMovieFavorited uid' mid' s.
Proof.
  intros Hne. unfold addToFavorites.
  destruct (findUser uid s) as [u|]; [|reflexivity].
  destruct (JS.includes mid (User.favorites u)); [reflexivity|]. simpl.
  apply (isMovieFavorited_mutateFound uid uid' mid' (JS.push mid)).
  intros He. now elim Hne.
Qed.

Lemma removeFromFavorites_other_user (uid mid uid' mid' : string)
                                     (s : Store) :
  uid' <> uid ->
  isMovieFavorited uid' mid' (fst (removeFromFavorites uid mid s))
  = isMovieFavorited uid' mid' s.
Proof.
  intros Hne. unfold removeFromFavorites.
  destruct (findUser uid s) as [u|]; [|reflexivity]. simpl.
  apply (isMovieFavorited_mutateFound uid uid' mid' (dropId mid)).
  intros He. now elim Hne.
Qed.

(** X17. A request that does not come from an administrator acts for the
    user of its own session only: every other user's favorites and every
    other user's ratings read back as before. (An administrator's deletion
    is the one request that reaches into other users' data.) *)
Theorem requests_act_for_their_user (h : Host.t) (r : Request) (s : Store)
                                    (other : string) :
  fromAdmin r = false ->
  sessionUserId (sessionOf r) <> Some other ->
  (forall mid, isMovieFavorited other mid (fst (serve h r s))
               = isMovieFavorited other mid s) /\
  (forall mid, getUserRating mid other (fst (serve h r s))
               = getUserRating mid other s).
Proof.
  destruct r; simpl; auto; unfold fromAdmin; simpl.
  - unfold MoviesRoute.POST. destruct session as [se|]; auto.
    now intros ->.
  - unfold MovieRoute.PUT. destruct session as [se|]; auto.
    now intros ->.
  - unfold MovieRoute.DELETE. destruct session as [se|]; auto.
    now intros ->.
  - intros _. unfold RatingsRoute.POST.
    destruct (sessionUserId session) as [uid|]; auto.
    destruct (truthy (Some uid)); auto. destruct body as [b|]; auto.
    destruct (ratingSchema b) as [[[mid q] rev]|]; auto.
    intros Hother. rewrite fst_match_option. split; intros mid'.
    + apply isMovieFavorited_same_users, addRating_users.
    + apply getUserRating_other_pair. right. congruence.
  - intros _. unfold FavoritesRoute.POST.
    destruct (sessionUserId session) as [uid|]; auto.
    destruct (truthy (Some uid)); auto. destruct body as [b|]; auto.
    destruct (fb_movieId b) as [mid|]; auto.
    destruct (truthy (Some mid)); auto.
    intros Hother. rewrite fst_match_bool. split; intros mid'.
    + apply addToFavorites_other_user. congruence.
    + apply getUserRating_same_movies, addToFavorites_movies.
  - intros _. unfold FavoritesRoute.DELETE.
    destruct (sessionUserId session) as [uid|]; auto.
    destruct (truthy (Some uid)); auto. destruct body as [b|]; auto.
    destruct (fb_movieId b) as [mid|]; auto.
    destruct (truthy (Some mid)); auto.
    intros Hother. rewrite fst_match_bool. split; intros mid'.
    + apply removeFromFavorites_other_user. congruence.
    + apply getUserRating_same_movies, removeFromFavorites_movies.
Qed.

Lemma requests_act_for_their_user_witness :
  isMovieFavorited "1" "3"
    (fst (serve sampleHost
            (FavoritesDELETE demoSession (Some (mkFavoriteBody (Some "3"))))
            bothFavorited)) = true /\
  isMovieFavorited "2" "3"
    (fst (serve sampleHost
            (FavoritesDELETE demoSession (Some (mkFavoriteBody (Some "3"))))
            bothFavorited)) = false.
Proof.
  split; [|reflexivity].
  destruct (requests_act_for_their_user sampleHost
              (FavoritesDELETE demoSession (Some (mkFavoriteBody (Some "3"))))
              bothFavorited "1") as [H _].
  - reflexivity.
  - discriminate.
  - rewrite H. reflexivity.
Defined.

(** ** Ratings that come through the route (X18, X19) *)

Lemma ratingOk_within (q : Q) :
  ratingOk q = true -> (1 <= q)%Q /\ (q <= 5)%Q.
Proof.
  unfold ratingOk. rewrite andb_true_iff, !Qle_bool_iff. tauto.
Qed.

Lemma ratingSchema_sound (b : RatingBody) mid q rev :
  ratingSchema b = Some (mid, q, rev) ->
  b_movieId b = Some (JStr mid) /\ mid <> "" /\
  b_rating b = Some (JNum q) /\ (1 <= q)%Q /\ (q <= 5)%Q /\
  (b_review b = None /\ rev = None \/
   exists t, b_review b = Some (JStr t) /\ rev = Some t).
Proof.
  unfold ratingSchema, requiredString, optionalString, nonEmpty.
  destruct (b_movieId b) as [[| | |m|]|]; try discriminate.
  destruct (String.eqb_spec m ""); simpl; try discriminate.
  destruct (b_rating b) as [[| |x| |]|]; try discriminate.
  destruct (b_review b) as [[| | |t|]|]; try discriminate;
    destruct (ratingOk x) eqn:Hx; try discriminate;
    intros E; injection E as <- <- <-;
    destruct (ratingOk_within _ Hx); repeat split; auto.
  right. now exists t.
Qed.


(** [exec_Forall] with the side conditions asked of the operation at hand
    only. *)
Lemma exec_Forall_guarded (P : Movie.t -> Prop) (o : Op) (s : Store) :
  match o with
  | OpAddMovie fields => P (newMovie fields s)
  | OpAddRating _ uid r rev => forall m, P m -> P (rate uid r rev m)
  | OpUpdateMovie _ u => forall m, P m -> P (merge m u)
  | _ => True
  end ->
  Forall P (movies s) -> Forall P (movies (exec o s)).
Proof.
  intros Ho H. rewrite exec_store. destruct o; simpl.
  - unfold JS.push. apply Forall_app. split; auto.
  - exact H.
  - now rewrite addToFavorites_movies.
  - now rewrite removeFromFavorites_movies.
  - unfold addRating. destruct (getMovieById mid s); auto. simpl.
    now apply mutateFound_Forall.
  - unfold updateMovie.
    destruct (JS.findIndex (hasMovieId i) (movies s)) as [idx|] eqn:Hi; auto.
    destruct (findIndex_Some _ _ _ Hi)
      as (l1 & x & l2 & Hl & <- & _ & _ & _ & Hn).
    rewrite Hn; simpl. rewrite Hl, assign_split.
    rewrite Hl in H. apply Forall_app in H as [H1 H2].
    inversion H2; subst. apply Forall_app; auto.
  - unfold deleteMovie.
    destruct (JS.findIndex (hasMovieId i) (movies s)) as [idx|] eqn:Hi; auto.
    destruct (findIndex_Some _ _ _ Hi) as (l1 & x & l2 & Hl & <- & _).
    simpl. rewrite Hl, splice1_split.
    rewrite Hl in H. apply Forall_app in H as [H1 H2].
    inversion H2; subst. apply Forall_app; auto.
Qed.





(** X19. A rating accepted by [POST /api/ratings] is the one
    [GET /api/ratings] returns to the same session for the movie id the body
    named. *)
Theorem posted_rating_is_read_back (session : option Session)
                                   (b : RatingBody) (s : Store) :
  status (snd (RatingsRoute.POST session (Some b) s)) = 200 ->
  exists mid q rev,
    ratingSchema b = Some (mid, q, rev) /\
    RatingsRoute.GET session (Some mid)
                     (fst (RatingsRoute.POST session (Some b) s))
    = mkResponse 200 (PRating (Some (q, rev))).
Proof.
  unfold RatingsRoute.POST, RatingsRoute.GET.
  destruct (sessionUserId session) as [uid|]; [|discriminate].
  destruct (truthy (Some uid)) eqn:Hu; [|discriminate].
  destruct (ratingSchema b) as [[[mid q] rev]|] eqn:Hb; [|discriminate].
  destruct (addRating mid uid q rev s) as [s' [m|]] eqn:Ha; [|discriminate].
  intros _. exists mid, q, rev. split; [reflexivity|]. cbn [fst].
  apply ratingSchema_sound in Hb as (_ & Hne & _).
  assert (Hmid : truthy (Some mid) = true)
    by (unfold truthy; apply negb_true_iff; now apply String.eqb_neq).
  rewrite Hmid.
  assert (Hknown : getMovieById mid s <> None).
  { unfold addRating in Ha. destruct (getMovieById mid s); congruence. }
  assert (Hs' : s' = fst (addRating mid uid q rev s)) by now rewrite Ha.
  rewrite Hs'. f_equal. f_equal.
  destruct (getMovieById mid s) as [m0|] eqn:Hm0; [|now elim Hknown].
  now apply (getUserRating_addRating_same mid uid q rev s m0).
Qed.

Lemma posted_rating_is_read_back_witness :
  exists mid q rev,
    ratingSchema fourStars = Some (mid, q, rev) /\
    RatingsRoute.GET demoSession (Some mid)
      (fst (RatingsRoute.POST demoSession (Some fourStars) initialStore))
    = mkResponse 200 (PRating (Some (q, rev))).
Proof.
  apply (posted_rating_is_read_back demoSession fourStars initialStore).
  reflexivity.
Defined.

(** ** What the schemas let into the catalog (X20, X21) *)

Lemma requiredString_sound (check : string -> bool) (v : option Json)
                           (x : string) :
  requiredString check v = Some x -> v = Some (JStr x) /\ check x = true.
Proof.
  unfold requiredString. destruct v as [[| | |y|]|]; try discriminate.
  destruct (check y) eqn:Hc; [|discriminate].
  intros E. injection E as <-. auto.
Qed.

Lemma optionalString_sound (check : string -> bool) (v : option Json)
                           (x : option string) :
  optionalString check v = Some x ->
  match x with
  | Some y => v = Some (JStr y) /\ check y = true
  | None => v = None
  end.
Proof.
  unfold optionalString. destruct v as [[| | |y|]|]; try discriminate.
  - destruct (check y) eqn:Hc; [|discriminate].
    intros E. injection E as <-. auto.
  - intros E. injection E as <-. reflexivity.
Qed.

Lemma movieSchema_sound (h : Host.t) (b : MovieBody) (f : MovieFields)
                        (s : Store) :
  movieSchema h b = Some f -> entryOk h (newMovie f s) = true.
Proof.
  unfold movieSchema.
  destruct (requiredString nonEmpty (b_title b)) as [t|] eqn:Ht;
    [|discriminate].
  destruct (requiredString (descriptionOk h) (b_description b)) as [d|] eqn:Hd;
    [|discriminate].
  destruct (requiredString (Host.isUrl h) (b_imageUrl b)) as [i|] eqn:Hi;
    [|discriminate].
  destruct (requiredString (Host.dateParses h) (b_releaseDate b)) as [r|] eqn:Hr;
    [|discriminate].
  intros E. injection E as <-. unfold entryOk; simpl.
  apply requiredString_sound in Ht as [_ ->], Hd as [_ ->],
    Hi as [_ ->], Hr as [_ ->]. reflexivity.
Qed.

Lemma orKeep_ok (check : string -> bool) (v : option Json)
                (x : option string) (old : string) :
  optionalString check v = Some x -> check old = true ->
  check (orKeep old x) = true.
Proof.
  intros Hx Hold. apply optionalString_sound in Hx.
  destruct x as [y|]; simpl; [tauto | exact Hold].
Qed.

Lemma movieUpdateSchema_sound (h : Host.t) (b : MovieBody)
                              (u : MovieUpdates) (m : Movie.t) :
  movieUpdateSchema h b = Some u ->
  entryOk h m = true -> entryOk h (merge m u) = true.
Proof.
  unfold movieUpdateSchema.
  destruct (optionalString nonEmpty (b_title b)) as [t|] eqn:Ht;
    [|discriminate].
  destruct (optionalString (descriptionOk h) (b_description b)) as [d|] eqn:Hd;
    [|discriminate].
  destruct (optionalString (Host.isUrl h) (b_imageUrl b)) as [i|] eqn:Hi;
    [|discriminate].
  destruct (optionalString (Host.dateParses h) (b_releaseDate b)) as [r|] eqn:Hr;
    [|discriminate].
  intros E. injection E as <-. unfold entryOk; simpl.
  rewrite !andb_true_iff. intros [[[H1 H2] H3] H4].
  repeat split; eapply orKeep_ok; eauto.
Qed.

Lemma operationOf_addMovie (h : Host.t) (r : Request) (f : MovieFields)
                           (s : Store) :
  operationOf h r = Some (OpAddMovie f) -> entryOk h (newMovie f s) = true.
Proof.
  destruct r; unfold operationOf; try discriminate.
  - destruct session as [se|]; [|discriminate].
    destruct body as [b|]; [|discriminate].
    destruct (isAdmin se); [|discriminate].
    destruct (movieSchema h b) as [f'|] eqn:Hb; [|discriminate].
    intros E. injection E as <-. now apply (movieSchema_sound h b).
  - destruct session as [se|]; [|discriminate].
    destruct body as [b|]; [|discriminate].
    destruct (isAdmin se); [|discriminate].
    destruct (movieUpdateSchema h b); discriminate.
  - destruct session as [se|]; [|discriminate].
    destruct (isAdmin se); discriminate.
  - destruct body as [b|]; [|discriminate].
    destruct (sessionUserId session) as [u|]; [|discriminate].
    destruct (ratingSchema b) as [[[m x] v]|]; [|discriminate].
    destruct (truthy (Some u)); discriminate.
  - destruct body as [b|]; [|discriminate].
    destruct (sessionUserId session) as [u|]; [|discriminate].
    destruct (fb_movieId b) as [m|]; [|discriminate].
    destruct (truthy (Some u) && truthy (Some m)); discriminate.
  - destruct body as [b|]; [|discriminate].
    destruct (sessionUserId session) as [u|]; [|discriminate].
    destruct (fb_movieId b) as [m|]; [|discriminate].
    destruct (truthy (Some u) && truthy (Some m)); discriminate.
Qed.

Lemma operationOf_updateMovie (h : Host.t) (r : Request) (i : string)
                              (u : MovieUpdates) (m : Movie.t) :
  operationOf h r = Some (OpUpdateMovie i u) ->
  entryOk h m = true -> entryOk h (merge m u) = true.
Proof.
  destruct r; unfold operationOf; try discriminate.
  - destruct session as [se|]; [|discriminate].
    destruct body as [b|]; [|discriminate].
    destruct (isAdmin se); [|discriminate].
    destruct (movieSchema h b); discriminate.
  - destruct session as [se|]; [|discriminate].
    destruct body as [b|]; [|discriminate].
    destruct (isAdmin se); [|discriminate].
    destruct (movieUpdateSchema h b) as [u'|] eqn:Hb; [|discriminate].
    intros E. injection E as <- <-. now apply (movieUpdateSchema_sound h b).
  - destruct session as [se|]; [|discriminate].
    destruct (isAdmin se); discriminate.
  - destruct body as [b|]; [|discriminate].
    destruct (sessionUserId session) as [u0|]; [|discriminate].
    destruct (ratingSchema b) as [[[m0 x] v]|]; [|discriminate].
    destruct (truthy (Some u0)); discriminate.
  - destruct body as [b|]; [|discriminate].
    destruct (sessionUserId session) as [u0|]; [|discriminate].
    destruct (fb_movieId b) as [m0|]; [|discriminate].
    destruct (truthy (Some u0) && truthy (Some m0)); discriminate.
  - destruct body as [b|]; [|discriminate].
    destruct (sessionUserId session) as [u0|]; [|discriminate].
    destruct (fb_movieId b) as [m0|]; [|discriminate].
    destruct (truthy (Some u0) && truthy (Some m0)); discriminate.
Qed.

Lemma served_entries (h : Host.t) (s : Store) :
  Forall (fun m => entryOk h m = true) initialMovies ->
  served h s -> Forall (fun m => entryOk h m = true) (movies s).
Proof.
  intros Hseed; induction 1 as [|r s _ IH]; [exact Hseed|].
  rewrite serve_operation.
  destruct (operationOf h r) as [o|] eqn:Ho; simpl; [|exact IH].
  apply exec_Forall_guarded; [|exact IH].
  destruct o; try exact I.
  - now apply (operationOf_addMovie h r).
  - intros m Hm. exact Hm.
  - intros m Hm. now apply (operationOf_updateMovie h r i).
Qed.

(** X20. The schemas guard the catalog: if the six seeded movies pass the
    four field checks of [movieSchema] (title not empty, description of ten
    code units or more, image a URL, release date parseable), so does every
    movie of every store the routes produce, whether it was created by
    [POST /api/movies] or edited, field by field, by [PUT /api/movies/id]. *)
Theorem served_movies_pass_schema (h : Host.t) (s : Store) (m : Movie.t) :
  Forall (fun x => entryOk h x = true) initialMovies ->
  served h s -> In m (movies s) ->
  Movie.title m <> "" /\
  10 <= Host.codeUnits h (Movie.description m) /\
  Host.isUrl h (Movie.imageUrl m) = true /\
  Host.dateParses h (Movie.releaseDate m) = true.
Proof.
  intros Hseed Hs Hin.
  pose proof (served_entries h s Hseed Hs) as Hall.
  rewrite Forall_forall in Hall. specialize (Hall m Hin).
  unfold entryOk, nonEmpty, descriptionOk in Hall.
  rewrite !andb_true_iff, negb_true_iff, String.eqb_neq in Hall.
  destruct Hall as [[[H1 H2] H3] H4].
  apply Nat.leb_le in H2. auto.
Qed.

Lemma seeds_pass_schema :
  Forall (fun x => entryOk sampleHost x = true) initialMovies.
Proof. repeat constructor. Qed.

Lemma served_movies_pass_schema_witness :
  match getMovieById "7" (serveAll sampleHost evening initialStore) with
  | Some m =>
      Movie.title m = "Arrival" /\
      10 <= String.length (Movie.description m) /\
      String.prefix "https://" (Movie.imageUrl m) = true
  | None => False
  end.
Proof.
  destruct (getMovieById "7" (serveAll sampleHost evening initialStore))
    as [m|] eqn:Hm; [|vm_compute in Hm; discriminate Hm].
  split.
  - assert (E : option_map Movie.title
                  (getMovieById "7" (serveAll sampleHost evening initialStore))
                = Some "Arrival") by reflexivity.
    rewrite Hm in E. now injection E.
  - destruct (served_movies_pass_schema sampleHost
                (serveAll sampleHost evening initialStore) m)
      as (_ & Hd & Hu & _).
    + exact seeds_pass_schema.
    + apply served_serveAll, served_init.
    + unfold getMovieById in Hm. now apply find_some in Hm.
    + split; [exact Hd | exact Hu].
Defined.

(** X21. Claim C9's hypothesis holds of every store the routes produce:
    on a host that parses the six seeded dates and gives a year to every
    date it parses, [getMovieYears] is strictly descending and free of
    duplicates whatever requests have been served. *)
Theorem served_years_descending (h : Host.t) (s : Store) :
  Forall (fun x => entryOk h x = true) initialMovies ->
  (forall d, Host.dateParses h d = true ->
             Host.getFullYear h d <> JS.NaN) ->
  served h s ->
  Sorted yearGt (getMovieYears (Host.getFullYear h) s) /\
  NoDup (getMovieYears (Host.getFullYear h) s).
Proof.
  intros Hseed Hlaw Hs.
  pose proof (served_entries h s Hseed Hs) as Hall.
  rewrite Forall_forall in Hall.
  destruct (getMovieYears_distinct (Host.getFullYear h) s) as [Hn _].
  split; [|exact Hn].
  apply sorted_strict; [exact Hn|]. apply sort_sorted.
  apply Forall_forall. intros y Hy.
  apply distinct_In, in_map_iff in Hy as (m & <- & Hm).
  apply Hlaw. specialize (Hall m Hm). unfold entryOk in Hall.
  rewrite !andb_true_iff in Hall. tauto.
Qed.

Lemma sampleHost_years (d : string) :
  Host.dateParses sampleHost d = true -> Host.getFullYear sampleHost d <> JS.NaN.
Proof. simpl. destruct (isoYear d); [discriminate | discriminate]. Qed.

Lemma served_years_descending_witness :
  getMovieYears isoYear (serveAll sampleHost evening initialStore)
    = [JS.Int 2016; JS.Int 2014; JS.Int 2010; JS.Int 2008; JS.Int 1999] /\
  Sorted yearGt (getMovieYears isoYear (serveAll sampleHost evening initialStore)).
Proof.
  split; [reflexivity|].
  apply (served_years_descending sampleHost
           (serveAll sampleHost evening initialStore)).
  - exact seeds_pass_schema.
  - exact sampleHost_years.
  - apply served_serveAll, served_init.
Defined.

(** ** Accounts (X22) *)


Lemma operationOf_not_addUser (h : Host.t) (r : Request) d now :
  operationOf h r <> Some (OpAddUser d now).
Proof.
  destruct r; unfold operationOf; try discriminate.
  - destruct session as [se|]; [|discriminate].
    destruct body as [b|]; [|discriminate].
    destruct (isAdmin se); [|discriminate].
    destruct (movieSchema h b); discriminate.
  - destruct session as [se|]; [|discriminate].
    destruct body as [b|]; [|discriminate].
    destruct (isAdmin se); [|discriminate].
    destruct (movieUpdateSchema h b); discriminate.
  - destruct session as [se|]; [|discriminate].
    destruct (isAdmin se); discriminate.
  - destruct body as [b|]; [|discriminate].
    destruct (sessionUserId session) as [u|]; [|discriminate].
    destruct (ratingSchema b) as [[[m x] v]|]; [|discriminate].
    destruct (truthy (Some u)); discriminate.
  - destruct body as [b|]; [|discriminate].
    destruct (sessionUserId session) as [u|]; [|discriminate].
    destruct (fb_movieId b) as [m|]; [|discriminate].
    destruct (truthy (Some u) && truthy (Some m)); discriminate.
  - destruct body as [b|]; [|discriminate].
    destruct (sessionUserId session) as [u|]; [|discriminate].
    destruct (fb_movieId b) as [m|]; [|discriminate].
    destruct (truthy (Some u) && truthy (Some m)); discriminate.
Qed.

(** X22. None of the routes creates, removes or rewrites an account:
    whatever requests have been served, the store holds the two seeded
    accounts, with their ids, e-mail addresses, names, password hashes and
    roles. *)
Theorem served_accounts_are_seeded (h : Host.t) (s : Store) :
  served h s -> map account (users s) = map account initialUsers.
Proof.
  induction 1 as [|r s _ IH]; [reflexivity|].
  rewrite serve_operation.
  destruct (operationOf h r) as [o|] eqn:Ho; simpl; [|exact IH].
  rewrite accounts_exec, IH.
  destruct o; try apply app_nil_r.
  now elim (operationOf_not_addUser h r d now).
Qed.

Lemma served_accounts_are_seeded_witness :
  map account (users (serveAll sampleHost evening initialStore))
    = map account initialUsers /\
  map User.favorites (users (serveAll sampleHost evening initialStore))
    = [[]; ["3"]].
Proof.
  split; [|reflexivity].
  apply (served_accounts_are_seeded sampleHost).
  apply served_serveAll, served_init.
Defined.

(** ** The favorite button (X23) *)

Lemma addToFavorites_found (uid mid : string) (s : Store) (u : User.t) :
  findUser uid s = Some u ->
  snd (addToFavorites uid mid s) = negb (isMovieFavorited uid mid s) /\
  isMovieFavorited uid mid (fst (addToFavorites uid mid s)) = true.
Proof.
  intros Hu. unfold addToFavorites, isMovieFavorited. rewrite Hu.
  destruct (JS.includes mid (User.favorites u)) eqn:Hinc; simpl.
  - now rewrite Hu.
  - split; [reflexivity|]. unfold findUser; simpl.
    rewrite findUser_mutateFound, Hu; simpl.
    apply includes_In. unfold JS.push. apply in_or_app; right; now left.
Qed.

Lemma removeFromFavorites_found (uid mid : string) (s : Store) (u : User.t) :
  findUser uid s = Some u ->
  snd (removeFromFavorites uid mid s) = true /\
  isMovieFavorited uid mid (fst (removeFromFavorites uid mid s)) = false.
Proof.
  intros Hu. unfold removeFromFavorites, isMovieFavorited. rewrite Hu.
  split; [reflexivity|]. unfold findUser; simpl.
  rewrite findUser_mutateFound, Hu; simpl.
  apply includes_false. rewrite dropId_In. tauto.
Qed.

Lemma truthy_nonempty (x : string) : x <> "" -> truthy (Some x) = true.
Proof.
  intros H. unfold truthy. apply negb_true_iff. now apply String.eqb_neq.
Qed.

(** X23. The favorite button of the movie page and the store: for a
    signed-in user the store knows, a click on a button whose flag agrees
    with the store flips both, so they agree again; a flag wrongly set is
    corrected by the click; a flag wrongly unset is not: the click is
    refused (the movie is already a favorite) and neither flag nor store
    moves. *)
Theorem toggleFavorite_follows_store (session : option Session)
                                     (uid mid : string) (flag : bool)
                                     (s : Store) (u : User.t) :
  sessionUserId session = Some uid -> uid <> "" -> mid <> "" ->
  findUser uid s = Some u ->
  (flag = isMovieFavorited uid mid s ->
   snd (toggleFavorite session mid flag s) = negb flag /\
   isMovieFavorited uid mid (fst (toggleFavorite session mid flag s))
     = negb flag) /\
  (flag = true -> isMovieFavorited uid mid s = false ->
   snd (toggleFavorite session mid flag s) = false /\
   isMovieFavorited uid mid (fst (toggleFavorite session mid flag s))
     = false) /\
  (flag = false -> isMovieFavorited uid mid s = true ->
   toggleFavorite session mid flag s = (s, false)).
Proof.
  intros Hsess Huid Hmid Hu.
  assert (Hse : exists se, session = Some se).
  { destruct session as [se|]; [now exists se | discriminate]. }
  destruct Hse as [se ->].
  destruct (addToFavorites_found uid mid s u Hu) as [Hadd1 Hadd2].
  destruct (removeFromFavorites_found uid mid s u Hu) as [Hrm1 Hrm2].
  destruct flag; unfold toggleFavorite.
  - unfold FavoritesRoute.DELETE.
    rewrite Hsess, (truthy_nonempty uid Huid); cbn [fb_movieId].
    rewrite (truthy_nonempty mid Hmid).
    destruct (removeFromFavorites uid mid s) as [sr br].
    cbn [fst snd] in *. subst br. cbn.
    split; [|split]; auto. discriminate.
  - unfold FavoritesRoute.POST.
    rewrite Hsess, (truthy_nonempty uid Huid); cbn [fb_movieId].
    rewrite (truthy_nonempty mid Hmid).
    destruct (addToFavorites uid mid s) as [sa ba] eqn:Ea.
    cbn [fst snd] in *. subst ba.
    split; [|split].
    + intros E. rewrite <- E. cbn. auto.
    + discriminate.
    + intros _ E. rewrite E in *. cbn.
      now rewrite (addToFavorites_false uid mid s sa Ea).
Qed.

Lemma toggleFavorite_follows_store_witness :
  snd (toggleFavorite demoSession "3" false initialStore) = true /\
  isMovieFavorited "2" "3"
    (fst (toggleFavorite demoSession "3" false initialStore)) = true.
Proof.
  destruct (findUser "2" initialStore) as [u|] eqn:Hu;
    [|vm_compute in Hu; discriminate Hu].
  destruct (toggleFavorite_follows_store demoSession "2" "3" false
              initialStore u) as (H & _ & _);
    try reflexivity; try discriminate; try exact Hu.
  apply H. reflexivity.
Defined.

(** ** What [POST /api/favorites] checks (X28) *)

(** X28. For a signed-in session and a non-empty movie id,
    [POST /api/favorites] answers 200 exactly when the session's user exists
    and does not have the id among the favorites yet, and the id then is a
    favorite. The catalog plays no part: an id that no movie carries is
    accepted like any other, the "not found" of the error text can only be
    the user. *)
Theorem favorites_POST_ignores_catalog (session : option Session)
                                       (uid mid : string) (s : Store) :
  sessionUserId session = Some uid -> uid <> "" -> mid <> "" ->
  (status (snd (FavoritesRoute.POST session
                  (Some (mkFavoriteBody (Some mid))) s)) = 200 <->
   exists u, findUser uid s = Some u /\ ~ In mid (User.favorites u)) /\
  (status (snd (FavoritesRoute.POST session
                  (Some (mkFavoriteBody (Some mid))) s)) = 200 ->
   isMovieFavorited uid mid
     (fst (FavoritesRoute.POST session (Some (mkFavoriteBody (Some mid))) s))
   = true).
Proof.
  intros Hsess Huid Hmid. unfold FavoritesRoute.POST.
  rewrite Hsess, (truthy_nonempty uid Huid); cbn [fb_movieId].
  rewrite (truthy_nonempty mid Hmid).
  destruct (findUser uid s) as [u|] eqn:Hu.
  - destruct (addToFavorites_found uid mid s u Hu) as [Hb Hfav].
    destruct (addToFavorites uid mid s) as [s' b]; cbn [fst snd] in *.
    subst b. unfold isMovieFavorited in *. rewrite Hu in *.
    destruct (JS.includes mid (User.favorites u)) eqn:Hinc; cbn.
    + split; [|discriminate]. split; [discriminate|].
      intros (u' & E & Hno). injection E as <-.
      apply includes_In in Hinc. contradiction.
    + split; [|intros _; exact Hfav]. split; [|reflexivity].
      intros _. exists u. split; [reflexivity|]. now apply includes_false.
  - unfold addToFavorites. rewrite Hu. cbn.
    split; [|discriminate]. split; [discriminate|].
    intros (u' & E & _). discriminate E.
Qed.

Lemma favorites_POST_ignores_catalog_witness :
  getMovieById "999" initialStore = None /\
  status (snd (FavoritesRoute.POST demoSession
                 (Some (mkFavoriteBody (Some "999"))) initialStore)) = 200.
Proof.
  split; [reflexivity|].
  apply (proj1 (favorites_POST_ignores_catalog demoSession "2" "999"
                  initialStore eq_refl ltac:(discriminate)
                  ltac:(discriminate))).
  eexists. split; [reflexivity|]. intros [].
Defined.

(** ** Text search (X24) *)

Lemma prefix_spec (t s : string) :
  String.prefix t s = true <-> exists after, s = (t ++ after)%string.
Proof.
  revert s; induction t as [|c t IH]; intros s.
  - split; [intros _; now exists s | intros _; now destruct s].
  - destruct s as [|d s]; simpl.
    + split; [discriminate | intros (after & H); discriminate H].
    + destruct (Ascii.ascii_dec c d) as [->|Hne].
      * rewrite IH. split; intros (after & H); exists after.
        -- now rewrite H.
        -- now injection H.
      * split; [discriminate|]. intros (after & H). injection H as H _.
        congruence.
Qed.

Lemma occursIn_spec (t s : string) :
  occursIn t s = true <-> substring t s.
Proof.
  unfold substring. induction s as [|c s IH].
  - cbn [occursIn]. rewrite orb_false_r, prefix_spec. split.
    + intros (after & H). now exists "", after.
    + intros (before & after & H). destruct before; simpl in H.
      * now exists after.
      * discriminate H.
  - cbn [occursIn]. rewrite orb_true_iff, prefix_spec, IH. split.
    + intros [(after & H)|(before & after & H)].
      * now exists "", after.
      * exists (String c before), after. simpl. now rewrite H.
    + intros (before & after & H). destruct before as [|d before].
      * left. now exists after.
      * right. injection H as _ H. now exists before, after.
Qed.

Lemma searchMovies_subseq (h : Host.t) (query : string) (s : Store) :
  subseq (searchMovies h query s) (movies s).
Proof.
  unfold searchMovies. destruct (String.eqb (Host.trim h query) "").
  - induction (movies s); now constructor.
  - apply filter_subseq.
Qed.

(** X24. [searchMovies] returns the whole catalog for a query that trims to
    nothing; otherwise it returns, in catalog order, exactly the movies whose
    lower-cased title or description contains the lower-cased, trimmed query
    as a contiguous piece of text. *)
Theorem searchMovies_finds_substrings (h : Host.t) (query : string)
                                      (s : Store) :
  (Host.trim h query = "" -> searchMovies h query s = movies s) /\
  subseq (searchMovies h query s) (movies s) /\
  (Host.trim h query <> "" ->
   forall m, In m (searchMovies h query s) <->
     In m (movies s) /\
     (substring (Host.trim h (Host.toLowerCase h query))
                (Host.toLowerCase h (Movie.title m)) \/
      substring (Host.trim h (Host.toLowerCase h query))
                (Host.toLowerCase h (Movie.description m)))).
Proof.
  split; [|split].
  - unfold searchMovies. now intros ->.
  - apply searchMovies_subseq.
  - unfold searchMovies. intros Hne. apply String.eqb_neq in Hne. rewrite Hne.
    intros m. rewrite filter_In, orb_true_iff, !occursIn_spec. tauto.
Qed.

Example search_is_case_blind :
  map Movie.id (searchMovies sampleHost "  FIGHT " initialStore)
    = ["1"; "6"] /\
  map Movie.id (searchMovies sampleHost "dream" initialStore) = ["2"] /\
  map Movie.id (searchMovies sampleHost "   " initialStore)
    = ["1"; "2"; "3"; "4"; "5"; "6"].
Proof. repeat split. Qed.

Lemma searchMovies_finds_substrings_witness :
  Forall (fun m =>
            substring (Host.trim sampleHost (Host.toLowerCase sampleHost "Dream"))
                      (Host.toLowerCase sampleHost (Movie.title m)) \/
            substring (Host.trim sampleHost (Host.toLowerCase sampleHost "Dream"))
                      (Host.toLowerCase sampleHost (Movie.description m)))
         (searchMovies sampleHost "Dream" initialStore).
Proof.
  assert (Hne : Host.trim sampleHost "Dream" <> "")
    by (vm_compute; discriminate).
  destruct (searchMovies_finds_substrings sampleHost "Dream" initialStore)
    as (_ & _ & H).
  apply Forall_forall. intros m Hm.
  exact (proj2 (proj1 (H Hne m) Hm)).
Defined.

(** ** The year filter of [GET /api/movies] (X25) *)

Lemma subseq_refl {A : Type} (l : list A) : subseq l l.
Proof. induction l; now constructor. Qed.

Lemma subseq_trans {A : Type} (l1 l2 l3 : list A) :
  subseq l1 l2 -> subseq l2 l3 -> subseq l1 l3.
Proof.
  intros H12 H23; revert l1 H12.
  induction H23 as [|x l2 l3 _ IH|x l2 l3 _ IH]; intros l1 H12.
  - exact H12.
  - inversion H12; subst; constructor; auto.
  - constructor; auto.
Qed.

(** X25. [GET /api/movies] always answers 200 with a selection of the
    catalog in catalog order. With a [year] parameter that [parseInt] reads
    as a number and no search, the selection is exactly the movies released
    that year: the same as [filterMoviesByYear] for every year but 0, where
    the route still filters and [filterMoviesByYear] returns everything. *)
Theorem GET_movies_filters_by_year (h : Host.t) (search year : option string)
                                   (s : Store) :
  (exists ms, MoviesRoute.GET h search year s = mkResponse 200 (PMovies ms) /\
              subseq ms (movies s)) /\
  (forall y n, year = Some y -> y <> "" -> Host.parseInt h y = JS.Int n ->
     search = None ->
     MoviesRoute.GET h search year s
     = mkResponse 200
         (PMovies (filter (fun m => JS.strictEq
                                      (yearOf (Host.getFullYear h) m)
                                      (JS.Int n)) (movies s))) /\
     (n <> 0%Z ->
      MoviesRoute.GET h search year s
      = mkResponse 200
          (PMovies (filterMoviesByYear (Host.getFullYear h)
                                       (Some (JS.Int n)) s)))).
Proof.
  split.
  - unfold MoviesRoute.GET. eexists. split; [reflexivity|].
    assert (Hfound : subseq
              match search with
              | Some q => if truthy search then searchMovies h q s
                          else getMovies s
              | None => getMovies s
              end (movies s)).
    { destruct search as [q|]; [|apply subseq_refl].
      destruct (truthy (Some q)); [|apply subseq_refl].
      apply (searchMovies_subseq h q s). }
    destruct year as [y|]; [|exact Hfound].
    destruct (truthy (Some y)); [|exact Hfound].
    destruct (Host.parseInt h y); [|exact Hfound].
    eapply subseq_trans; [apply filter_subseq | exact Hfound].
  - intros y n -> Hy Hn ->. unfold MoviesRoute.GET.
    rewrite (truthy_nonempty y Hy), Hn. split; [reflexivity|].
    intros Hnz. unfold filterMoviesByYear; simpl.
    apply Z.eqb_neq in Hnz. now rewrite Hnz.
Qed.

Lemma GET_movies_filters_by_year_witness :
  MoviesRoute.GET sampleHost None (Some "1999") initialStore
  = mkResponse 200
      (PMovies (filterMoviesByYear isoYear (Some (JS.Int 1999)) initialStore)).
Proof.
  destruct (GET_movies_filters_by_year sampleHost None (Some "1999")
              initialStore) as [_ H].
  assert (Hy : "1999" <> "") by discriminate.
  assert (Hn : Host.parseInt sampleHost "1999" = JS.Int 1999) by reflexivity.
  assert (Hz : 1999%Z <> 0%Z) by discriminate.
  exact (proj2 (H "1999" 1999%Z eq_refl Hy Hn eq_refl) Hz).
Defined.

(** ** Signing in (X26) *)

Lemma truthy_spec (x : option string) :
  truthy x = true <-> exists v, x = Some v /\ v <> "".
Proof.
  unfold truthy. destruct x as [v|].
  - rewrite negb_true_iff, String.eqb_neq. split.
    + intros H. now exists v.
    + intros (w & E & H). now injection E as ->.
  - split; [discriminate | intros (w & E & _); discriminate E].
Qed.

Lemma getUserByEmail_email (e : string) (s : Store) (u : User.t) :
  getUserByEmail e s = Some u -> User.email u = e /\ In u (users s).
Proof.
  unfold getUserByEmail. intros H. apply find_some in H as [Hin He].
  apply String.eqb_eq in He. auto.
Qed.

(** X26. [authorize] lets a sign-in through exactly when e-mail and
    password are both given and not empty, an account with that e-mail
    exists, and [bcrypt.compare] accepts the password against the hash of
    the first such account. What it returns is that account's id, e-mail,
    name and role, and the session built from it by the [jwt] and [session]
    callbacks carries that id, and the role 'admin' exactly when the account
    is an administrator's. *)
Theorem authorize_checks_password (h : Host.t)
                                  (credentials : option Credentials)
                                  (s : Store) (a : AuthUser) :
  authorize h credentials s = Some a <->
  exists email password user,
    credentials = Some (mkCredentials (Some email) (Some password)) /\
    email <> "" /\ password <> "" /\
    getUserByEmail email s = Some user /\
    User.email user = email /\
    Host.compare h password (User.password user) = true /\
    a = mkAuthUser (User.id user) (User.email user) (User.name user)
                   (roleName (User.role user)) /\
    (forall token,
       sessionUserId (Some (sessionCallback (jwt token (Some a))))
         = Some (User.id user) /\
       (isAdmin (sessionCallback (jwt token (Some a))) = true <->
        User.role user = User.admin)).
Proof.
  unfold authorize. split.
  - destruct credentials as [[e p]|]; [|discriminate]. simpl.
    destruct (truthy e) eqn:He; [|discriminate].
    destruct (truthy p) eqn:Hp; [|discriminate]. simpl.
    apply truthy_spec in He as (email & -> & Hemail).
    apply truthy_spec in Hp as (password & -> & Hpassword).
    destruct (getUserByEmail email s) as [user|] eqn:Hu; [|discriminate].
    destruct (Host.compare h password (User.password user)) eqn:Hc;
      [|discriminate].
    intros E. injection E as <-.
    exists email, password, user.
    destruct (getUserByEmail_email _ _ _ Hu) as [Hmail _].
    repeat split; auto; simpl.
    + destruct (User.role user); [reflexivity | discriminate].
    + intros ->. reflexivity.
  - intros (email & password & user & -> & He & Hp & Hu & _ & Hc & -> & _).
    cbn [c_email c_password].
    rewrite (truthy_nonempty email He), (truthy_nonempty password Hp).
    cbn [negb orb]. now rewrite Hu, Hc.
Qed.

Lemma authorize_checks_password_witness :
  authorize sampleHost
    (Some (mkCredentials (Some "demo@example.com") (Some "password")))
    initialStore
  = Some (mkAuthUser "2" "demo@example.com" "Demo User" "user") /\
  authorize sampleHost
    (Some (mkCredentials (Some "demo@example.com") (Some "guess")))
    initialStore = None.
Proof.
  split; [|reflexivity].
  apply (authorize_checks_password sampleHost).
  eexists _, _, _. split; [reflexivity|].
  split; [discriminate|]. split; [discriminate|].
  split; [reflexivity|]. split; [reflexivity|]. split; [reflexivity|].
  split; [reflexivity|]. intros token. split; [reflexivity|].
  split; discriminate.
Defined.

(** ** The page gate and the route check (X27) *)

(** X27. The middleware's gate on the page [/add-movie] and the check in
    [POST /api/movies] agree on every token: the session built from a token
    is answered with neither 401 nor 403 exactly when the middleware lets
    the token into the page; without a token the middleware refuses the
    page and the route answers 401. *)
Theorem page_gate_matches_route (h : Host.t) (body : option MovieBody)
                                (s : Store) :
  (forall token,
     authorized (Some token) "/add-movie" = true <->
     status (snd (MoviesRoute.POST h (Some (sessionCallback token)) body s))
       <> 401 /\
     status (snd (MoviesRoute.POST h (Some (sessionCallback token)) body s))
       <> 403) /\
  authorized None "/add-movie" = false /\
  status (snd (MoviesRoute.POST h None body s)) = 401.
Proof.
  split; [|split; reflexivity].
  intros [tid trole].
  unfold authorized, MoviesRoute.POST, isAdmin, sessionCallback.
  change (String.prefix "/add-movie" "/add-movie") with true.
  cbn [t_role s_user su_role].
  destruct trole as [r|]; [destruct (String.eqb r "admin")|]; cbn [negb].
  - split; [intros _ | reflexivity].
    destruct body as [b|]; [destruct (movieSchema h b)|];
      split; discriminate.
  - split; [discriminate | intros [_ H]; now elim H].
  - split; [discriminate | intros [_ H]; now elim H].
Qed.
